(** * The search client: a shallow embedding and its properties

    The development follows [search.go]: the query normaliser
    [ensureCorrectFieldsParam], the request builder [newSearchRequest],
    the response classifier inside [Search] and the hit decoder
    [makeResponse], with the hit types of the package as the tables
    that the JSON decoder reads.  The Go standard library that the
    package calls (strings, net/url, net/http, encoding/json) is
    modelled next to it, each part in a module of its own; what is not
    modelled of it is collected in the class [StdLib].

    A Go string is a string of bytes here, taken to be well-formed
    UTF-8; [int] has 64 bits; a Go map updated in place is a map passed
    in and returned; the context of a request and the deferred draining
    and closing of the response body have no part in the results and
    are left out. *)

From Stdlib Require Import String Ascii ZArith List Lia DecimalString.
From stdpp Require Import base option gmap strings list.

Set Warnings "-register-all".

Open Scope string_scope.
Open Scope list_scope.

(** ** Package strings *)

Module GoStrings.

(** [strings.Split(s, sep)] for a separator of one byte: the pieces of
    [s] between the occurrences of [sep], in order; a string without
    the separator (the empty string too) gives one piece. *)
Fixpoint Split (s : string) (sep : ascii) : list string :=
  match s with
  | EmptyString => [ EmptyString ]
  | String c s' =>
      if Ascii.eqb c sep then EmptyString :: Split s' sep
      else match Split s' sep with
           | piece :: rest => String c piece :: rest
           | [] => [ String c EmptyString ]
           end
  end.

(** ASCII white space, as [unicode.IsSpace] has it below U+0080. *)
Definition isSpace (c : ascii) : bool :=
  match c with
  | " "%char | "009"%char | "010"%char | "011"%char | "012"%char | "013"%char => true
  | _ => false
  end.

Fixpoint TrimLeft (s : string) : string :=
  match s with
  | String c s' => if isSpace c then TrimLeft s' else s
  | EmptyString => EmptyString
  end.

(** Drops the white space at the end: a character survives when it is
    not a space or something that survives follows it. *)
Fixpoint TrimRight (s : string) : string :=
  match s with
  | EmptyString => EmptyString
  | String c s' =>
      match TrimRight s' with
      | EmptyString => if isSpace c then EmptyString else String c EmptyString
      | t => String c t
      end
  end.

Definition TrimSpace (s : string) : string := TrimRight (TrimLeft s).

(** The text before the first occurrence of [sep] (all of [s] when
    there is none). *)
Fixpoint Before (s : string) (sep : ascii) : string :=
  match s with
  | EmptyString => EmptyString
  | String c s' => if Ascii.eqb c sep then EmptyString else String c (Before s' sep)
  end.

(** The texts of the examples are written with an apostrophe where
    JSON has a quotation mark; [quoted] puts the quotation marks. *)
Fixpoint quoted (s : string) : string :=
  match s with
  | EmptyString => EmptyString
  | String c s' => String (if Ascii.eqb c "'" then "034"%char else c) (quoted s')
  end.

(** [%d] of fmt for an integer. *)
Definition Itoa (z : Z) : string := NilZero.string_of_int (Z.to_int z).

End GoStrings.

(** ** Package net/url: query parameter sets *)

Module URL.

(** [url.Values] is [map[string][]string]; a Go map may be nil, which
    reads as the empty map and must not be written to. *)
Abbreviation Values := (option (gmap string (list string))).

(** [Values.Get]: the first value of the key, the empty string when
    there is none (or the map is nil). *)
Definition Get (v : Values) (key : string) : string :=
  match v with
  | None => ""
  | Some m => match m !! key with
              | Some (x :: _) => x
              | _ => ""
              end
  end.

(** [Values.Set] on a map that is not nil: the key gets the one value,
    whatever it had before. *)
Definition Set_ (m : gmap string (list string)) (key value : string)
  : gmap string (list string) :=
  <[ key := [ value ] ]> m.

(** [url.URL], the parts the package touches. *)
Record URL : Type := mkURL {
  Scheme : string;
  Host : string;
  Path : string;
  RawQuery : string
}.

Definition withRawQuery (u : URL) (q : string) : URL :=
  {| Scheme := Scheme u; Host := Host u; Path := Path u; RawQuery := q |}.

End URL.

(** ** Package net/http *)

Module HTTP.

(** [http.Header]; the nil header reads as the empty one. *)
Abbreviation Header := (gmap string (list string)).

(** [Header.Get] for a key in canonical form. *)
Definition Get (h : Header) (key : string) : string :=
  match h !! key with
  | Some (x :: _) => x
  | _ => ""
  end.

(** [Header.Set] for a key in canonical form. *)
Definition Set_ (h : Header) (key value : string) : Header :=
  <[ key := [ value ] ]> h.

Record Request : Type := mkRequest {
  Method : string;
  URL : URL.URL;
  ReqHeader : Header
}.

Record Response : Type := mkResponse {
  StatusCode : Z;
  RespHeader : Header;
  Body : string
}.

Definition StatusOK : Z := 200.

(** [http.StatusText]: the reason phrase of a status code, the empty
    string for a code that has none. *)
Definition StatusText (code : Z) : string :=
  match code with
  | 100 => "Continue"
  | 101 => "Switching Protocols"
  | 102 => "Processing"
  | 103 => "Early Hints"
  | 200 => "OK"
  | 201 => "Created"
  | 202 => "Accepted"
  | 203 => "Non-Authoritative Information"
  | 204 => "No Content"
  | 205 => "Reset Content"
  | 206 => "Partial Content"
  | 207 => "Multi-Status"
  | 208 => "Already Reported"
  | 226 => "IM Used"
  | 300 => "Multiple Choices"
  | 301 => "Moved Permanently"
  | 302 => "Found"
  | 303 => "See Other"
  | 304 => "Not Modified"
  | 305 => "Use Proxy"
  | 307 => "Temporary Redirect"
  | 308 => "Permanent Redirect"
  | 400 => "Bad Request"
  | 401 => "Unauthorized"
  | 402 => "Payment Required"
  | 403 => "Forbidden"
  | 404 => "Not Found"
  | 405 => "Method Not Allowed"
  | 406 => "Not Acceptable"
  | 407 => "Proxy Authentication Required"
  | 408 => "Request Timeout"
  | 409 => "Conflict"
  | 410 => "Gone"
  | 411 => "Length Required"
  | 412 => "Precondition Failed"
  | 413 => "Request Entity Too Large"
  | 414 => "Request URI Too Long"
  | 415 => "Unsupported Media Type"
  | 416 => "Requested Range Not Satisfiable"
  | 417 => "Expectation Failed"
  | 418 => "I'm a teapot"
  | 421 => "Misdirected Request"
  | 422 => "Unprocessable Entity"
  | 423 => "Locked"
  | 424 => "Failed Dependency"
  | 425 => "Too Early"
  | 426 => "Upgrade Required"
  | 428 => "Precondition Required"
  | 429 => "Too Many Requests"
  | 431 => "Request Header Fields Too Large"
  | 451 => "Unavailable For Legal Reasons"
  | 500 => "Internal Server Error"
  | 501 => "Not Implemented"
  | 502 => "Bad Gateway"
  | 503 => "Service Unavailable"
  | 504 => "Gateway Timeout"
  | 505 => "HTTP Version Not Supported"
  | 506 => "Variant Also Negotiates"
  | 507 => "Insufficient Storage"
  | 508 => "Loop Detected"
  | 510 => "Not Extended"
  | 511 => "Network Authentication Required"
  | _ => ""
  end%Z.

End HTTP.

(** ** The query normaliser *)

(** [strings.Split(fields, ",")] searched for the entry "type". *)
Definition hasTypeField (fields : string) : bool :=
  existsb (fun f => String.eqb f "type") (GoStrings.Split fields ","%char).

(** [ensureCorrectFieldsParam]: the map behind the pointer is updated in
    place; the function returns the map as it is afterwards.  [Set] is
    only reached when [Get] gave a value, so never on a nil map. *)
Definition ensureCorrectFieldsParam (query : URL.Values) : URL.Values :=
  let fields := URL.Get query "fields" in
  if negb (String.eqb fields "") then
    match query with
    | Some m =>
        if negb (hasTypeField fields)
        then Some (URL.Set_ m "fields" (fields ++ ",type"))
        else query
    | None => query
    end
  else query.

(** ** Package encoding/json: scanning *)

Module JSON.

(** A JSON text after scanning.  A number keeps its literal: what it
    converts to depends on the Go type it is stored in. *)
Inductive value : Type :=
| Null
| Bool (b : bool)
| Number (lit : string)
| Str (s : string)
| Array (els : list value)
| Object (members : list (string * value)).

(** The ways scanning fails: [*json.SyntaxError], [io.ErrUnexpectedEOF]
    and [io.EOF]. *)
Inductive scan_error : Type := SyntaxError | UnexpectedEOF | EOF.

Inductive scanned (A : Type) : Type :=
| Scanned (a : A) (rest : string)
| Failed (e : scan_error)
| OutOfFuel.
Arguments Scanned {A} a rest.
Arguments Failed {A} e.
Arguments OutOfFuel {A}.

Definition bind {A B : Type} (m : scanned A) (k : A -> string -> scanned B)
  : scanned B :=
  match m with
  | Scanned a rest => k a rest
  | Failed e => Failed e
  | OutOfFuel => OutOfFuel
  end.

Notation "'scan' a 'then' r <- m ; k" := (bind m (fun a r => k))
  (at level 10, a name, r name, m at level 100, k at level 200).

Definition isSpace (c : ascii) : bool :=
  match c with
  | " "%char | "009"%char | "010"%char | "013"%char => true
  | _ => false
  end.

Fixpoint skipSpace (s : string) : string :=
  match s with
  | String c s' => if isSpace c then skipSpace s' else s
  | EmptyString => EmptyString
  end.

Definition isDigit (c : ascii) : bool :=
  (48 <=? nat_of_ascii c)%nat && (nat_of_ascii c <=? 57)%nat.

(** The digits in front of [s], and what follows them. *)
Fixpoint digits (s : string) : string * string :=
  match s with
  | String c s' =>
      if isDigit c then let (d, r) := digits s' in (String c d, r)
      else (EmptyString, s)
  | EmptyString => (EmptyString, EmptyString)
  end.

(** One digit at least is wanted at [s]. *)
Definition digits1 (s : string) : scanned string :=
  match digits s with
  | (EmptyString, EmptyString) => Failed UnexpectedEOF
  | (EmptyString, _) => Failed SyntaxError
  | (d, r) => Scanned d r
  end.

(** The integer part: a single 0, or a digit from 1 to 9 and more
    digits. *)
Definition scanInt (s : string) : scanned string :=
  match s with
  | EmptyString => Failed UnexpectedEOF
  | String c s' =>
      if Ascii.eqb c "0" then Scanned "0" s'
      else if isDigit c then let (d, r) := digits s' in Scanned (String c d) r
      else Failed SyntaxError
  end.

Definition scanFrac (s : string) : scanned string :=
  match s with
  | String c s' =>
      if Ascii.eqb c "." then
        scan d then r <- digits1 s' ; Scanned (String c d) r
      else Scanned "" s
  | EmptyString => Scanned "" s
  end.

Definition scanExp (s : string) : scanned string :=
  match s with
  | String c s' =>
      if Ascii.eqb c "e" || Ascii.eqb c "E" then
        match s' with
        | String g s'' =>
            if Ascii.eqb g "+" || Ascii.eqb g "-" then
              scan d then r <- digits1 s'' ; Scanned (String c (String g d)) r
            else
              scan d then r <- digits1 s' ; Scanned (String c d) r
        | EmptyString => Failed UnexpectedEOF
        end
      else Scanned "" s
  | EmptyString => Scanned "" s
  end.

(** A number literal: sign, integer part, fraction, exponent. *)
Definition scanNumber (s : string) : scanned string :=
  let (sign, s1) := match s with
                    | String c r => if Ascii.eqb c "-" then ("-", r) else ("", s)
                    | EmptyString => ("", s)
                    end in
  scan i then s2 <- scanInt s1 ;
  scan f then s3 <- scanFrac s2 ;
  scan e then s4 <- scanExp s3 ;
  Scanned (sign ++ i ++ f ++ e)%string s4.

(** The rest of a literal name (true, false, null) after its first
    letter. *)
Fixpoint expect (lit s : string) : scanned unit :=
  match lit with
  | EmptyString => Scanned tt s
  | String c lit' =>
      match s with
      | EmptyString => Failed UnexpectedEOF
      | String d s' => if Ascii.eqb c d then expect lit' s' else Failed SyntaxError
      end
  end.

(** *** String literals *)

Definition hexVal (c : ascii) : option N :=
  let n := N_of_ascii c in
  if (48 <=? n)%N && (n <=? 57)%N then Some (n - 48)%N
  else if (97 <=? n)%N && (n <=? 102)%N then Some (n - 87)%N
  else if (65 <=? n)%N && (n <=? 70)%N then Some (n - 55)%N
  else None.

(** [getu4]: the value of four hexadecimal digits. *)
Definition hex4 (a b c d : ascii) : option N :=
  match hexVal a, hexVal b, hexVal c, hexVal d with
  | Some x, Some y, Some z, Some w => Some (((x * 16 + y) * 16 + z) * 16 + w)%N
  | _, _, _, _ => None
  end.

(** What the scanner says of an escape cut short: the first character
    that is no hexadecimal digit is a syntax error, the end of the
    input before that is an unexpected end. *)
Fixpoint shortHex (s : string) : scan_error :=
  match s with
  | EmptyString => UnexpectedEOF
  | String c s' => match hexVal c with
                   | Some _ => shortHex s'
                   | None => SyntaxError
                   end
  end.

(** [utf8.EncodeRune] for a rune that is no surrogate. *)
Definition encodeRune (r : N) : string :=
  let byte (n : N) := ascii_of_N n in
  let cont (n : N) := byte (128 + n mod 64)%N in
  if (r <? 128)%N then String (byte r) ""
  else if (r <? 2048)%N then String (byte (192 + r / 64)%N) (String (cont r) "")
  else if (r <? 65536)%N then
    String (byte (224 + r / 4096)%N) (String (cont (r / 64)%N) (String (cont r) ""))
  else
    String (byte (240 + r / 262144)%N)
      (String (cont (r / 4096)%N) (String (cont (r / 64)%N) (String (cont r) ""))).

Definition replacementChar : N := 65533.

Definition isSurrogate (r : N) : bool := (55296 <=? r)%N && (r <? 57344)%N.

(** [utf16.DecodeRune]: the rune of a surrogate pair, the replacement
    character for anything else. *)
Definition decodePair (r1 r2 : N) : N :=
  if (55296 <=? r1)%N && (r1 <? 56320)%N && (56320 <=? r2)%N && (r2 <? 57344)%N
  then ((r1 - 55296) * 1024 + (r2 - 56320) + 65536)%N
  else replacementChar.

Definition simpleEscape (c : ascii) : option ascii :=
  match c with
  | "034"%char => Some "034"%char
  | "\"%char => Some "\"%char
  | "/"%char => Some "/"%char
  | "b"%char => Some "008"%char
  | "f"%char => Some "012"%char
  | "n"%char => Some "010"%char
  | "r"%char => Some "013"%char
  | "t"%char => Some "009"%char
  | _ => None
  end.

Definition prepend (p : string) (m : scanned string) : scanned string :=
  scan t then r <- m ; Scanned (p ++ t)%string r.

(** The second half of a surrogate pair, when [s] starts with one. *)
Definition lowSurrogate (s : string) : option (N * string) :=
  match s with
  | String e (String u (String a (String b (String c (String d s'))))) =>
      if Ascii.eqb e "\" && Ascii.eqb u "u" then
        match hex4 a b c d with
        | Some r => Some (r, s')
        | None => None
        end
      else None
  | _ => None
  end.

(** The characters of a string literal after its opening quote, up to
    the closing one, with the escapes replaced as [unquote] does.
    Bytes from 128 on are kept as they are: the input is taken to be
    well-formed UTF-8 (Go puts U+FFFD where it is not). *)
Fixpoint scanChars (s : string) : scanned string :=
  match s with
  | EmptyString => Failed UnexpectedEOF
  | String c s1 =>
      if Ascii.eqb c "034" then Scanned "" s1
      else if Ascii.eqb c "\" then
        match s1 with
        | EmptyString => Failed UnexpectedEOF
        | String e s2 =>
            match simpleEscape e with
            | Some b => prepend (String b "") (scanChars s2)
            | None =>
                if Ascii.eqb e "u" then
                  match s2 with
                  | String h1 (String h2 (String h3 (String h4 s3))) =>
                      match hex4 h1 h2 h3 h4 with
                      | None => Failed SyntaxError
                      | Some r =>
                          if isSurrogate r then
                            match s3 with
                            | String _ (String _ (String _ (String _ (String _ (String _ s4))))) =>
                                match lowSurrogate s3 with
                                | Some (r1, _) =>
                                    if (decodePair r r1 =? replacementChar)%N
                                    then prepend (encodeRune replacementChar) (scanChars s3)
                                    else prepend (encodeRune (decodePair r r1)) (scanChars s4)
                                | None => prepend (encodeRune replacementChar) (scanChars s3)
                                end
                            | _ => prepend (encodeRune replacementChar) (scanChars s3)
                            end
                          else prepend (encodeRune r) (scanChars s3)
                      end
                  | _ => Failed (shortHex s2)
                  end
                else Failed SyntaxError
            end
        end
      else if (N_of_ascii c <? 32)%N then Failed SyntaxError
      else prepend (String c "") (scanChars s1)
  end.

(** *** Values *)

(** One JSON value at the front of [s], white space before it skipped.
    [scanValue] reads a value, [scanElements] the elements of an array
    after its bracket and [scanMembers] the members of an object after
    its brace, the first one known to be there in both cases.  The
    recursion is on the fuel, which [Decode] sets from the length of
    the input. *)
Fixpoint scanValue (fuel : nat) (s : string) : scanned value :=
  match fuel with
  | O => OutOfFuel
  | S fuel' =>
      match skipSpace s with
      | EmptyString => Failed UnexpectedEOF
      | String c s1 =>
          if Ascii.eqb c "{" then
            match skipSpace s1 with
            | EmptyString => Failed UnexpectedEOF
            | String d s2 =>
                if Ascii.eqb d "}" then Scanned (Object []) s2
                else scan ms then r <- scanMembers fuel' (String d s2) ;
                     Scanned (Object ms) r
            end
          else if Ascii.eqb c "[" then
            match skipSpace s1 with
            | EmptyString => Failed UnexpectedEOF
            | String d s2 =>
                if Ascii.eqb d "]" then Scanned (Array []) s2
                else scan vs then r <- scanElements fuel' (String d s2) ;
                     Scanned (Array vs) r
            end
          else if Ascii.eqb c "034" then
            scan t then r <- scanChars s1 ; Scanned (Str t) r
          else if Ascii.eqb c "t" then
            scan _u then r <- expect "rue" s1 ; Scanned (Bool true) r
          else if Ascii.eqb c "f" then
            scan _u then r <- expect "alse" s1 ; Scanned (Bool false) r
          else if Ascii.eqb c "n" then
            scan _u then r <- expect "ull" s1 ; Scanned Null r
          else if Ascii.eqb c "-" || isDigit c then
            scan lit then r <- scanNumber (String c s1) ; Scanned (Number lit) r
          else Failed SyntaxError
      end
  end
with scanElements (fuel : nat) (s : string) : scanned (list value) :=
  match fuel with
  | O => OutOfFuel
  | S fuel' =>
      scan v then r <- scanValue fuel' s ;
      match skipSpace r with
      | EmptyString => Failed UnexpectedEOF
      | String c r1 =>
          if Ascii.eqb c "," then
            scan vs then r2 <- scanElements fuel' r1 ; Scanned (v :: vs) r2
          else if Ascii.eqb c "]" then Scanned [v] r1
          else Failed SyntaxError
      end
  end
with scanMembers (fuel : nat) (s : string) : scanned (list (string * value)) :=
  match fuel with
  | O => OutOfFuel
  | S fuel' =>
      match skipSpace s with
      | EmptyString => Failed UnexpectedEOF
      | String q s1 =>
          if Ascii.eqb q "034" then
            scan key then r <- scanChars s1 ;
            match skipSpace r with
            | EmptyString => Failed UnexpectedEOF
            | String c r1 =>
                if Ascii.eqb c ":" then
                  scan v then r2 <- scanValue fuel' r1 ;
                  match skipSpace r2 with
                  | EmptyString => Failed UnexpectedEOF
                  | String d r3 =>
                      if Ascii.eqb d "," then
                        scan ms then r4 <- scanMembers fuel' r3 ;
                        Scanned ((key, v) :: ms) r4
                      else if Ascii.eqb d "}" then Scanned [(key, v)] r3
                      else Failed SyntaxError
                  end
                else Failed SyntaxError
            end
          else Failed SyntaxError
      end
  end.

(** Fuel that is enough for [s]: see [scanValue_fuel]. *)
Definition fuelFor (s : string) : nat := 2 * String.length s + 2.

(** [Decoder.Decode] up to the scanned value: the first JSON value of
    the stream; what follows it is not looked at.  A stream with
    nothing but white space is [io.EOF]. *)
Definition scanFirst (body : string) : value + scan_error :=
  match skipSpace body with
  | EmptyString => inr EOF
  | _ => match scanValue (fuelFor body) body with
         | Scanned v _ => inl v
         | Failed e => inr e
         | OutOfFuel => inr SyntaxError
         end
  end.

(** *** Go types and values, as the decoder sees them by reflection *)

(** The types the package decodes into.  A struct lists its fields in
    the order of the declaration: Go name, JSON name, type.  A value
    of type [interface{}] holds the JSON value as it is (the conversion
    of its numbers to float64 is not modelled). *)
Inductive gotype : Type :=
| TString
| TInt
| TBool
| TTime                       (* time.Time *)
| TRaw                        (* json.RawMessage *)
| TAny                        (* interface{} *)
| TSlice (elem : gotype)
| TMap (elem : gotype)        (* map[string]elem *)
| TStruct (name : string) (fields : list (string * string * gotype)).

Inductive goval : Type :=
| VString (s : string)
| VInt (n : Z)
| VBool (b : bool)
| VTime (rfc3339 : option string)   (* the zero time is [None] *)
| VRaw (raw : option value)
| VAny (v : option value)
| VNil                              (* the nil slice, the nil map *)
| VSlice (els : list goval)
| VMap (m : gmap string goval)
| VStruct (fields : list (string * goval)).

Fixpoint zero (t : gotype) : goval :=
  match t with
  | TString => VString ""
  | TInt => VInt 0
  | TBool => VBool false
  | TTime => VTime None
  | TRaw => VRaw None
  | TAny => VAny None
  | TSlice _ | TMap _ => VNil
  | TStruct _ fields =>
      VStruct (List.map (fun f : string * string * gotype => (fst (fst f), zero (snd f))) fields)
  end.

Inductive error : Type :=
| ScanError (e : scan_error)
| UnmarshalTypeError (Value : string) (Type_ : gotype)
| TimeError (input : value).

(** *** Field lookup *)

Definition toUpper (c : ascii) : ascii :=
  let n := N_of_ascii c in
  if (97 <=? n)%N && (n <=? 122)%N then ascii_of_N (n - 32) else c.

(** [foldName]: letters of ASCII in upper case; the long s (C5 BF) and
    the Kelvin sign (E2 84 AA) fold to S and K, the only runes outside
    ASCII whose fold is inside. *)
Fixpoint foldName (s : string) : string :=
  match s with
  | EmptyString => EmptyString
  | String c s1 =>
      match s1 with
      | String d s2 =>
          if Ascii.eqb c "197" && Ascii.eqb d "191" then String "S" (foldName s2)
          else
            match s2 with
            | String e s3 =>
                if Ascii.eqb c "226" && Ascii.eqb d "132" && Ascii.eqb e "170"
                then String "K" (foldName s3)
                else String (toUpper c) (foldName s1)
            | EmptyString => String (toUpper c) (foldName s1)
            end
      | EmptyString => String (toUpper c) (foldName s1)
      end
  end.

(** The field a JSON name goes to: the one with exactly that name, or
    else the first one equal to it under folding. *)
Definition findField (fields : list (string * string * gotype)) (key : string)
  : option (string * gotype) :=
  match List.find (fun f => String.eqb (snd (fst f)) key) fields with
  | Some f => Some (fst (fst f), snd f)
  | None =>
      match List.find (fun f => String.eqb (foldName (snd (fst f))) (foldName key)) fields with
      | Some f => Some (fst (fst f), snd f)
      | None => None
      end
  end.

Fixpoint getField (fs : list (string * goval)) (name : string) : option goval :=
  match fs with
  | [] => None
  | (n, v) :: fs' => if String.eqb n name then Some v else getField fs' name
  end.

Fixpoint setField (fs : list (string * goval)) (name : string) (v : goval)
  : list (string * goval) :=
  match fs with
  | [] => []
  | (n, w) :: fs' =>
      if String.eqb n name then (n, v) :: fs' else (n, w) :: setField fs' name v
  end.

(** *** Numbers *)

Fixpoint allDigits (s : string) : bool :=
  match s with
  | EmptyString => true
  | String c s' => isDigit c && allDigits s'
  end.

Fixpoint digitsValue (s : string) (acc : Z) : Z :=
  match s with
  | EmptyString => acc
  | String c s' => digitsValue s' (10 * acc + (Z.of_nat (nat_of_ascii c) - 48))%Z
  end.

(** [strconv.ParseInt(lit, 10, 64)] on a number literal: the literal
    has to be an integer, and to fit in 64 bits ([int] is taken to
    have 64). *)
Definition parseInt (lit : string) : option Z :=
  let (neg, ds) := match lit with
                   | String c r => if Ascii.eqb c "-" then (true, r) else (false, lit)
                   | EmptyString => (false, lit)
                   end in
  match ds with
  | EmptyString => None
  | _ =>
      if allDigits ds then
        let n := if neg then (- digitsValue ds 0)%Z else digitsValue ds 0 in
        if ((- 2 ^ 63 <=? n) && (n <=? 2 ^ 63 - 1))%Z then Some n else None
      else None
  end.

(** *** Storing a value *)

(** The decoder goes on after a value that does not fit its target and
    reports the first such value when it is done ([saveError]); an
    error returned by an [Unmarshaler] stops it at once. *)
Inductive decoded (A : Type) : Type :=
| Done (a : A) (saved : option error)
| Abort (e : error).
Arguments Done {A} a saved.
Arguments Abort {A} e.

Definition saveError (e : error) (saved : option error) : option error :=
  match saved with
  | Some _ => saved
  | None => Some e
  end.

(** The three loops of the decoder, over the elements of an array
    and the members of an object, with the decoding of one value
    ([decodeState.value], defined below) as [value_]. *)
Section Loops.

Variable value_ : gotype -> value -> goval -> option error -> decoded goval.

(** [decodeState.array] into a slice: element [i] is decoded into
    what the slice has at [i], or into a zero value when the slice
    is shorter.  (Go keeps what is between the length and the
    capacity of the old slice; the model takes zero values there.) *)
Fixpoint storeElements (et : gotype) (els : list value) (olds : list goval)
    (saved : option error) : decoded (list goval) :=
  match els with
  | [] => Done [] saved
  | e :: els' =>
      match value_ et e (List.hd (zero et) olds) saved with
      | Done v saved' =>
          match storeElements et els' (List.tl olds) saved' with
          | Done vs saved'' => Done (v :: vs) saved''
          | Abort err => Abort err
          end
      | Abort err => Abort err
      end
  end.

(** [decodeState.object] into a struct: a member goes to the field
    of its name, in the order of the text; a member without a field
    is skipped. *)
Fixpoint storeMembers (fields : list (string * string * gotype))
    (ms : list (string * value)) (cur : list (string * goval))
    (saved : option error) : decoded (list (string * goval)) :=
  match ms with
  | [] => Done cur saved
  | kv :: ms' =>
      match findField fields (fst kv) with
      | None => storeMembers fields ms' cur saved
      | Some (name, ft) =>
          match value_ ft (snd kv) (default (zero ft) (getField cur name)) saved with
          | Done v saved' => storeMembers fields ms' (setField cur name v) saved'
          | Abort err => Abort err
          end
      end
  end.

(** [decodeState.object] into a map: every member is decoded into a
    fresh element and put under its key. *)
Fixpoint storeEntries (et : gotype) (ms : list (string * value))
    (m : gmap string goval) (saved : option error) : decoded (gmap string goval) :=
  match ms with
  | [] => Done m saved
  | kv :: ms' =>
      match value_ et (snd kv) (zero et) saved with
      | Done v saved' => storeEntries et ms' (<[ fst kv := v ]> m) saved'
      | Abort err => Abort err
      end
  end.

End Loops.

Section Store.

(** [parseStrictRFC3339]: whether a text is a time.  The parsing of
    times is not modelled; a time is held as its text. *)
Variable validTime : string -> bool.

(** [Time.UnmarshalJSON]. *)
Definition unmarshalTime (j : value) (old : goval) : goval + error :=
  match j with
  | Null => inl old
  | Str s => if validTime s then inl (VTime (Some s)) else inr (TimeError j)
  | _ => inr (TimeError j)
  end.

(** [decodeState.value] for a target of type [t] that holds [old].
    A [time.Time] and a [json.RawMessage] take every value through
    their [UnmarshalJSON]; for the other types the kind of the value
    decides. *)
Fixpoint store (t : gotype) (j : value) (old : goval) (saved : option error)
  {struct j} : decoded goval :=
  let mismatch (what : string) :=
    Done old (saveError (UnmarshalTypeError what t) saved) in
  match t with
  | TTime =>
      match unmarshalTime j old with
      | inl v => Done v saved
      | inr e => Abort e
      end
  | TRaw => Done (VRaw (Some j)) saved
  | _ =>
      match j with
      | Null =>
          match t with
          | TSlice _ | TMap _ => Done VNil saved
          | TAny => Done (VAny None) saved
          | _ => Done old saved
          end
      | Bool b =>
          match t with
          | TBool => Done (VBool b) saved
          | TAny => Done (VAny (Some j)) saved
          | _ => mismatch "bool"
          end
      | Str s =>
          match t with
          | TString => Done (VString s) saved
          | TAny => Done (VAny (Some j)) saved
          | _ => mismatch "string"
          end
      | Number lit =>
          match t with
          | TInt =>
              match parseInt lit with
              | Some n => Done (VInt n) saved
              | None => mismatch ("number " ++ lit)%string
              end
          | TAny => Done (VAny (Some j)) saved
          | _ => mismatch "number"
          end
      | Array els =>
          match t with
          | TSlice et =>
              let olds := match old with VSlice l => l | _ => [] end in
              match storeElements store et els olds saved with
              | Done vs saved' => Done (VSlice vs) saved'
              | Abort err => Abort err
              end
          | TAny => Done (VAny (Some j)) saved
          | _ => mismatch "array"
          end
      | Object ms =>
          match t with
          | TStruct _ fields =>
              let cur := match old with VStruct fs => fs | _ => [] end in
              match storeMembers store fields ms cur saved with
              | Done fs saved' => Done (VStruct fs) saved'
              | Abort err => Abort err
              end
          | TMap et =>
              let m0 := match old with VMap m => m | _ => ∅ end in
              match storeEntries store et ms m0 saved with
              | Done m saved' => Done (VMap m) saved'
              | Abort err => Abort err
              end
          | TAny => Done (VAny (Some j)) saved
          | _ => mismatch "object"
          end
      end
  end.

(** [json.Unmarshal] into a fresh variable of type [t], on a text
    that scanned: the value, or the error in place of it (the four
    callers drop the variable when there is an error). *)
Definition Unmarshal (t : gotype) (j : value) : goval + error :=
  match store t j (zero t) None with
  | Done v None => inl v
  | Done _ (Some e) => inr e
  | Abort e => inr e
  end.

(** [json.NewDecoder(body).Decode(&v)] for a fresh [v] of type [t]. *)
Definition Decode (t : gotype) (body : string) : goval + error :=
  match scanFirst body with
  | inl j => Unmarshal t j
  | inr e => inr (ScanError e)
  end.

End Store.

End JSON.

(** ** The hit types

    The declarations of the package, as the tables the decoder reads by
    reflection. *)

(** [type Tags map[string][]string] *)
Definition Tags : JSON.gotype := JSON.TMap (JSON.TSlice JSON.TString).

Definition Team : JSON.gotype :=
  JSON.TStruct "Team"
    [
      ("Name", "name", JSON.TString);
      ("NID", "nid", JSON.TString)
    ].

Definition LocalizedImage : JSON.gotype :=
  JSON.TStruct "LocalizedImage"
    [
      ("Caption", "caption", JSON.TString);
      ("Copyright", "copyright", JSON.TString);
      ("Language", "language", JSON.TString);
      ("URL", "url", JSON.TString)
    ].

Definition Image : JSON.gotype :=
  JSON.TStruct "Image"
    [
      ("Caption", "caption", JSON.TString);
      ("Copyright", "copyright", JSON.TString);
      ("Localizations", "localizations", JSON.TSlice LocalizedImage);
      ("URL", "url", JSON.TString)
    ].

Definition ExternalReference : JSON.gotype :=
  JSON.TStruct "ExternalReference"
    [
      ("Locator", "locator", JSON.TString);
      ("Type", "type", JSON.TString);
      ("Value", "value", JSON.TString)
    ].

Definition Genre : JSON.gotype :=
  JSON.TStruct "Genre"
    [
      ("Main", "main", JSON.TString);
      ("Sub", "sub", JSON.TSlice JSON.TString)
    ].

Definition Brand : JSON.gotype :=
  JSON.TStruct "Brand"
    [
      ("Cinemascope", "cinemascope", Image);
      ("Country", "country", JSON.TSlice JSON.TString);
      ("DescriptionExtendedDa", "description_extended_da", JSON.TString);
      ("DescriptionExtendedFi", "description_extended_fi", JSON.TString);
      ("DescriptionExtendedNb", "description_extended_nb", JSON.TString);
      ("DescriptionExtendedSv", "description_extended_sv", JSON.TString);
      ("DescriptionLongDa", "description_long_da", JSON.TString);
      ("DescriptionLongFi", "description_long_fi", JSON.TString);
      ("DescriptionLongNb", "description_long_nb", JSON.TString);
      ("DescriptionLongSv", "description_long_sv", JSON.TString);
      ("DescriptionMediumDa", "description_medium_da", JSON.TString);
      ("DescriptionMediumFi", "description_medium_fi", JSON.TString);
      ("DescriptionMediumNb", "description_medium_nb", JSON.TString);
      ("DescriptionMediumSv", "description_medium_sv", JSON.TString);
      ("DescriptionShortDa", "description_short_da", JSON.TString);
      ("DescriptionShortFi", "description_short_fi", JSON.TString);
      ("DescriptionShortNb", "description_short_nb", JSON.TString);
      ("DescriptionShortSv", "description_short_sv", JSON.TString);
      ("DescriptionTinyDa", "description_tiny_da", JSON.TString);
      ("DescriptionTinyFi", "description_tiny_fi", JSON.TString);
      ("DescriptionTinyNb", "description_tiny_nb", JSON.TString);
      ("DescriptionTinySv", "description_tiny_sv", JSON.TString);
      ("ExternalReferences", "external_references", JSON.TSlice ExternalReference);
      ("Genres", "genres", JSON.TSlice Genre);
      ("ID", "id", JSON.TString);
      ("Landscape", "landscape", Image);
      ("Poster", "poster", Image);
      ("Studio", "studio", JSON.TString);
      ("TitleDa", "title_da", JSON.TString);
      ("TitleFi", "title_fi", JSON.TString);
      ("TitleNb", "title_nb", JSON.TString);
      ("TitleSv", "title_sv", JSON.TString)
    ].

Definition Credit : JSON.gotype :=
  JSON.TStruct "Credit"
    [
      ("Function", "function", JSON.TString);
      ("NID", "nid", JSON.TString);
      ("Name", "name", JSON.TString);
      ("Rolename", "rolename", JSON.TString)
    ].

Definition Event : JSON.gotype :=
  JSON.TStruct "Event"
    [
      ("Site", "site", JSON.TString);
      ("DeviceTypes", "device_types", JSON.TSlice JSON.TString);
      ("Products", "products", JSON.TSlice JSON.TString);
      ("StartTime", "start_time", JSON.TTime);
      ("EndTime", "end_time", JSON.TTime);
      ("PublishTime", "publish_time", JSON.TTime)
    ].

Definition OriginalTitle : JSON.gotype :=
  JSON.TStruct "OriginalTitle"
    [
      ("Language", "language", JSON.TString);
      ("Text", "text", JSON.TString);
      ("Type", "type", JSON.TString)
    ].

Definition ParentalRating : JSON.gotype :=
  JSON.TStruct "ParentalRating"
    [
      ("Country", "country", JSON.TString);
      ("System", "system", JSON.TString);
      ("Value", "value", JSON.TString)
    ].

Definition LocationRestrictions : JSON.gotype :=
  JSON.TStruct "LocationRestrictions"
    [
      ("IncludeCountries", "include_countries", JSON.TSlice JSON.TString)
    ].

Definition LocationRights : JSON.gotype :=
  JSON.TStruct "LocationRights"
    [
      ("LocationRestrictions", "location_restrictions", LocationRestrictions);
      ("Product", "product", JSON.TString)
    ].

Definition PublicationRights : JSON.gotype :=
  JSON.TStruct "PublicationRights"
    [
      ("LocationRights", "location_rights", LocationRights)
    ].

Definition Season : JSON.gotype :=
  JSON.TStruct "Season"
    [
      ("Cinemascope", "cinemascope", Image);
      ("Country", "country", JSON.TSlice JSON.TString);
      ("DescriptionExtendedDa", "description_extended_da", JSON.TString);
      ("DescriptionExtendedFi", "description_extended_fi", JSON.TString);
      ("DescriptionExtendedNb", "description_extended_nb", JSON.TString);
      ("DescriptionExtendedSv", "description_extended_sv", JSON.TString);
      ("DescriptionLongDa", "description_long_da", JSON.TString);
      ("DescriptionLongFi", "description_long_fi", JSON.TString);
      ("DescriptionLongNb", "description_long_nb", JSON.TString);
      ("DescriptionLongSv", "description_long_sv", JSON.TString);
      ("DescriptionMediumDa", "description_medium_da", JSON.TString);
      ("DescriptionMediumFi", "description_medium_fi", JSON.TString);
      ("DescriptionMediumNb", "description_medium_nb", JSON.TString);
      ("DescriptionMediumSv", "description_medium_sv", JSON.TString);
      ("DescriptionShortDa", "description_short_da", JSON.TString);
      ("DescriptionShortFi", "description_short_fi", JSON.TString);
      ("DescriptionShortNb", "description_short_nb", JSON.TString);
      ("DescriptionShortSv", "description_short_sv", JSON.TString);
      ("DescriptionTinyDa", "description_tiny_da", JSON.TString);
      ("DescriptionTinyFi", "description_tiny_fi", JSON.TString);
      ("DescriptionTinyNb", "description_tiny_nb", JSON.TString);
      ("DescriptionTinySv", "description_tiny_sv", JSON.TString);
      ("ExternalReferences", "external_references", JSON.TSlice ExternalReference);
      ("Genres", "genres", JSON.TSlice Genre);
      ("ID", "id", JSON.TString);
      ("Landscape", "landscape", Image);
      ("Number", "season_number", JSON.TInt);
      ("NumberOfEpisodes", "number_of_episodes", JSON.TInt);
      ("Poster", "poster", Image);
      ("Studio", "studio", JSON.TString);
      ("TitleDa", "title_da", JSON.TString);
      ("TitleFi", "title_fi", JSON.TString);
      ("TitleNb", "title_nb", JSON.TString);
      ("TitleSv", "title_sv", JSON.TString)
    ].

Definition Asset : JSON.gotype :=
  JSON.TStruct "Asset"
    [
      ("Arena", "arena", JSON.TString);
      ("AwayTeam", "awayteam", Team);
      ("Brand", "brand", Brand);
      ("Cinemascope", "cinemascope", Image);
      ("ContentSource", "content_source", JSON.TString);
      ("Country", "country", JSON.TSlice JSON.TString);
      ("Credits", "credits", JSON.TSlice Credit);
      ("DRMRestrictions", "drm_restrictions", JSON.TBool);
      ("DescriptionExtendedDa", "description_extended_da", JSON.TString);
      ("DescriptionExtendedFi", "description_extended_fi", JSON.TString);
      ("DescriptionExtendedNb", "description_extended_nb", JSON.TString);
      ("DescriptionExtendedSv", "description_extended_sv", JSON.TString);
      ("DescriptionLongDa", "description_long_da", JSON.TString);
      ("DescriptionLongFi", "description_long_fi", JSON.TString);
      ("DescriptionLongNb", "description_long_nb", JSON.TString);
      ("DescriptionLongSv", "description_long_sv", JSON.TString);
      ("DescriptionMediumDa", "description_medium_da", JSON.TString);
      ("DescriptionMediumFi", "description_medium_fi", JSON.TString);
      ("DescriptionMediumNb", "description_medium_nb", JSON.TString);
      ("DescriptionMediumSv", "description_medium_sv", JSON.TString);
      ("DescriptionShortDa", "description_short_da", JSON.TString);
      ("DescriptionShortFi", "description_short_fi", JSON.TString);
      ("DescriptionShortNb", "description_short_nb", JSON.TString);
      ("DescriptionShortSv", "description_short_sv", JSON.TString);
      ("DescriptionTinyDa", "description_tiny_da", JSON.TString);
      ("DescriptionTinyFi", "description_tiny_fi", JSON.TString);
      ("DescriptionTinyNb", "description_tiny_nb", JSON.TString);
      ("DescriptionTinySv", "description_tiny_sv", JSON.TString);
      ("Duration", "duration", JSON.TInt);
      ("EpisodeNumber", "episode_number", JSON.TInt);
      ("Events", "events", JSON.TSlice Event);
      ("ExternalReferences", "external_references", JSON.TSlice ExternalReference);
      ("Genres", "genres", JSON.TSlice Genre);
      ("HomeTeam", "hometeam", Team);
      ("ItemsPublished", "items_published", JSON.TBool);
      ("KeywordsDa", "keywords_dk", JSON.TSlice JSON.TString);
      ("KeywordsFi", "keywords_fi", JSON.TSlice JSON.TString);
      ("KeywordsNb", "keywords_nb", JSON.TSlice JSON.TString);
      ("KeywordsSv", "keywords_sv", JSON.TSlice JSON.TString);
      ("Landscape", "landscape", Image);
      ("Live", "live", JSON.TBool);
      ("LiveEventEnd", "live_event_end", JSON.TTime);
      ("LogoAwayTeam", "logoawayteam", Image);
      ("LogoHomeTeam", "logohometeam", Image);
      ("MLTNIDs", "mlt_nids", JSON.TSlice JSON.TString);
      ("OriginalTitle", "original_title", OriginalTitle);
      ("ParentalRatings", "parental_ratings", JSON.TSlice ParentalRating);
      ("Poster", "poster", Image);
      ("ProductionYear", "production_year", JSON.TString);
      ("PublicationRights", "publication_rights", PublicationRights);
      ("Season", "season", Season);
      ("SpokenLanguages", "spoken_languages", JSON.TSlice JSON.TString);
      ("Studio", "studio", JSON.TString);
      ("Tags", "tags", Tags);
      ("Timestamp", "timestamp", JSON.TString);
      ("TitleDa", "title_da", JSON.TString);
      ("TitleFi", "title_fi", JSON.TString);
      ("TitleNb", "title_nb", JSON.TString);
      ("TitleSv", "title_sv", JSON.TString);
      ("Type", "type", JSON.TString);
      ("VMANID", "vman_id", JSON.TString);
      ("VideoID", "video_id", JSON.TString)
    ].

Definition Series : JSON.gotype :=
  JSON.TStruct "Series"
    [
      ("BrandID", "brand_id", JSON.TString);
      ("Cinemascope", "cinemascope", Image);
      ("ContentSource", "content_source", JSON.TString);
      ("Country", "country", JSON.TSlice JSON.TString);
      ("Credits", "credits", JSON.TSlice Credit);
      ("DescriptionExtendedDa", "description_extended_da", JSON.TString);
      ("DescriptionExtendedFi", "description_extended_fi", JSON.TString);
      ("DescriptionExtendedNb", "description_extended_nb", JSON.TString);
      ("DescriptionExtendedSv", "description_extended_sv", JSON.TString);
      ("DescriptionLongDa", "description_long_da", JSON.TString);
      ("DescriptionLongFi", "description_long_fi", JSON.TString);
      ("DescriptionLongNb", "description_long_nb", JSON.TString);
      ("DescriptionLongSv", "description_long_sv", JSON.TString);
      ("DescriptionMediumDa", "description_medium_da", JSON.TString);
      ("DescriptionMediumFi", "description_medium_fi", JSON.TString);
      ("DescriptionMediumNb", "description_medium_nb", JSON.TString);
      ("DescriptionMediumSv", "description_medium_sv", JSON.TString);
      ("DescriptionShortDa", "description_short_da", JSON.TString);
      ("DescriptionShortFi", "description_short_fi", JSON.TString);
      ("DescriptionShortNb", "description_short_nb", JSON.TString);
      ("DescriptionShortSv", "description_short_sv", JSON.TString);
      ("DescriptionTinyDa", "description_tiny_da", JSON.TString);
      ("DescriptionTinyFi", "description_tiny_fi", JSON.TString);
      ("DescriptionTinyNb", "description_tiny_nb", JSON.TString);
      ("DescriptionTinySv", "description_tiny_sv", JSON.TString);
      ("Events", "events", JSON.TSlice Event);
      ("ExternalReferences", "external_references", JSON.TSlice ExternalReference);
      ("Genres", "genres", JSON.TSlice Genre);
      ("ID", "id", JSON.TString);
      ("KeywordsDa", "keywords_dk", JSON.TSlice JSON.TString);
      ("KeywordsFi", "keywords_fi", JSON.TSlice JSON.TString);
      ("KeywordsNb", "keywords_nb", JSON.TSlice JSON.TString);
      ("KeywordsSv", "keywords_sv", JSON.TSlice JSON.TString);
      ("Landscape", "landscape", Image);
      ("Poster", "poster", Image);
      ("Seasons", "seasons", JSON.TSlice JSON.TInt);
      ("SpokenLanguages", "spoken_languages", JSON.TSlice JSON.TString);
      ("Studio", "studio", JSON.TString);
      ("Tags", "tags", Tags);
      ("Timestamp", "timestamp", JSON.TString);
      ("TitleDa", "title_da", JSON.TString);
      ("TitleFi", "title_fi", JSON.TString);
      ("TitleNb", "title_nb", JSON.TString);
      ("TitleSv", "title_sv", JSON.TString);
      ("Type", "type", JSON.TString)
    ].

(** ** The package *)

(** [type Hit interface{}]: the decoder puts a [*Series] or an [*Asset]
    in it, each pointing to a variable of its own. *)
Inductive Hit : Type :=
| HitSeries (series : JSON.goval)
| HitAsset (asset : JSON.goval).

(** [Meta], with the [RequestURL] that [Search] fills in. *)
Record Meta : Type := mkMeta {
  StatusCode : Z;
  Header : HTTP.Header;
  RequestURL : option URL.URL
}.

Record Response : Type := mkResponse {
  TotalHits : Z;
  Hits : list Hit;
  Meta_ : Meta
}.

(** The zero values [Meta{}] and [Response{}], and [Response{Meta: meta}]. *)
Definition zeroMeta : Meta :=
  {| StatusCode := 0; Header := ∅; RequestURL := None |}.

Definition zeroResponse : Response :=
  {| TotalHits := 0; Hits := []; Meta_ := zeroMeta |}.

Definition metaOnly (meta : Meta) : Response :=
  {| TotalHits := 0; Hits := []; Meta_ := meta |}.

(** The error values that leave the package. *)
Inductive error : Type :=
| ErrTypeMissing
| ErrContentTypeNotJSON
| ErrInvalidBaseURL
| Errorf (text : string)            (* fmt.Errorf: an error with this text *)
| APIErrorValue (ae : JSON.goval)   (* &ae *)
| JSONError (e : JSON.error)        (* from encoding/json *)
| LibraryError (text : string).     (* from net/url and net/http *)

Record Client : Type := mkClient {
  baseURL : option URL.URL;
  appName : string;
  httpClient : HTTP.Request -> HTTP.Response + string   (* httpClient.Do *)
}.

(** The functions of the standard library that the package calls and
    that are not modelled here. *)
Class StdLib : Type := {
  validTime : string -> bool;                            (* time: strict RFC 3339 *)
  jsonErrorText : JSON.error -> string;                  (* %v of a decoding error *)
  pathJoin : string -> string -> string;                 (* path.Join *)
  urlParse : string -> URL.URL + string;                 (* url.Parse *)
  ResolveReference : URL.URL -> URL.URL -> URL.URL;      (* URL.ResolveReference *)
  Encode : URL.Values -> string;                         (* Values.Encode *)
  URLString : URL.URL -> string;                         (* URL.String *)
  NewRequest : string -> string -> HTTP.Request + string (* http.NewRequest, no body *)
}.

(** Modelled from the spec: the content-type matching of
    [isJSONResponse], which is not among the sources (only its test
    is).  A content type is JSON when, with the parameters after a
    semicolon and the white space around it left out, it is
    application/json in these very letters. *)
Definition isJSONMediaType (contentType : string) : bool :=
  String.eqb (GoStrings.TrimSpace (GoStrings.Before contentType ";"%char))
             "application/json".

(** Modelled from the spec: [isJSONResponse], which is not among the
    sources (only its test is).  The first value of the Content-Type
    header decides; a response without the header is not JSON. *)
Definition isJSONResponse (resp : HTTP.Response) : bool :=
  isJSONMediaType (HTTP.Get (HTTP.RespHeader resp) "Content-Type").

(** A text of white space only. *)
Definition allSpace (s : string) : Prop :=
  forall c, In c (list_ascii_of_string s) -> GoStrings.isSpace c = true.

(** Modelled from the spec: the declaration of [APIError] is not among
    the sources.  It has the message of the service and a code that is
    a string or an integer. *)
Definition APIError : JSON.gotype :=
  JSON.TStruct "APIError"
    [
      ("Message", "message", JSON.TString);
      ("Code", "code", JSON.TAny)
    ].

(** [SetRequestID]. *)
Definition SetRequestID (requestID : string) : HTTP.Request -> HTTP.Request :=
  fun r =>
    {| HTTP.Method := HTTP.Method r;
       HTTP.URL := HTTP.URL r;
       HTTP.ReqHeader := HTTP.Set_ (HTTP.ReqHeader r) "X-Request-Id" requestID |}.

(** The anonymous struct types of [makeResponse]. *)
Definition envelope : JSON.gotype :=
  JSON.TStruct ""
    [
      ("TotalHits", "total_hits", JSON.TInt);
      ("Hits", "assets", JSON.TSlice JSON.TRaw)
    ].

Definition typeOnly : JSON.gotype :=
  JSON.TStruct "" [ ("Type", "Type", JSON.TString) ].

(** Reading a field of a decoded struct. *)
Definition stringField (v : JSON.goval) (name : string) : string :=
  match v with
  | JSON.VStruct fs =>
      match JSON.getField fs name with
      | Some (JSON.VString s) => s
      | _ => ""
      end
  | _ => ""
  end.

Definition intField (v : JSON.goval) (name : string) : Z :=
  match v with
  | JSON.VStruct fs =>
      match JSON.getField fs name with
      | Some (JSON.VInt n) => n
      | _ => 0%Z
      end
  | _ => 0%Z
  end.

Definition sliceField (v : JSON.goval) (name : string) : list JSON.goval :=
  match v with
  | JSON.VStruct fs =>
      match JSON.getField fs name with
      | Some (JSON.VSlice l) => l
      | _ => []
      end
  | _ => []
  end.

Definition appendHit (response : Response) (h : Hit) : Response :=
  {| TotalHits := TotalHits response;
     Hits := Hits response ++ [h];
     Meta_ := Meta_ response |}.

(** [response] with more hits after the ones it has. *)
Definition addHits (response : Response) (hits : list Hit) : Response :=
  {| TotalHits := TotalHits response;
     Hits := Hits response ++ hits;
     Meta_ := Meta_ response |}.

Section Package.

Context `{StdLib}.

(** [json.Unmarshal(h, &x)] for a raw message [h] and a fresh [x]; the
    empty message is no JSON text. *)
Definition unmarshalRaw (t : JSON.gotype) (h : JSON.goval) : JSON.goval + JSON.error :=
  match h with
  | JSON.VRaw (Some j) => JSON.Unmarshal validTime t j
  | _ => inr (JSON.ScanError JSON.SyntaxError)
  end.

(** The loop of [makeResponse] over [v.Hits]. *)
Fixpoint decodeHits (hits : list JSON.goval) (response : Response)
  : Response * option error :=
  match hits with
  | [] => (response, None)
  | h :: rest =>
      match unmarshalRaw typeOnly h with
      | inr err => (response, Some (JSONError err))
      | inl t =>
          if String.eqb (stringField t "Type") "" then
            (response, Some ErrTypeMissing)
          else if String.eqb (stringField t "Type") "series" then
            match unmarshalRaw Series h with
            | inr err => (response, Some (JSONError err))
            | inl series => decodeHits rest (appendHit response (HitSeries series))
            end
          else
            match unmarshalRaw Asset h with
            | inr err => (response, Some (JSONError err))
            | inl asset => decodeHits rest (appendHit response (HitAsset asset))
            end
      end
  end.

(** What the loop does with one element alone: it appends a hit, or
    it stops with an error. *)
Definition decodesTo (h : JSON.goval) (hit : Hit) : Prop :=
  decodeHits [h] zeroResponse = (appendHit zeroResponse hit, None).

Definition failsWith (h : JSON.goval) (e : error) : Prop :=
  decodeHits [h] zeroResponse = (zeroResponse, Some e).

Definition makeMeta (req : HTTP.Request) (resp : HTTP.Response) : Meta :=
  {| StatusCode := HTTP.StatusCode resp;
     Header := HTTP.RespHeader resp;
     RequestURL := Some (HTTP.URL req) |}.

Definition makeResponse (req : HTTP.Request) (resp : HTTP.Response)
  : Response * option error :=
  let meta := makeMeta req resp in
  match JSON.Decode validTime envelope (HTTP.Body resp) with
  | inr err => (metaOnly meta, Some (JSONError err))
  | inl v =>
      let response := {| TotalHits := intField v "TotalHits";
                         Hits := [];
                         Meta_ := meta |} in
      decodeHits (sliceField v "Hits") response
  end.

(** [newSearchRequest].  The query is a Go map, which the function
    changes in place: the map as it is afterwards is returned next to
    the result.  The context only reaches the transport and is left
    out. *)
Definition newSearchRequest (c : Client) (query : URL.Values)
    (options : list (HTTP.Request -> HTTP.Request))
  : URL.Values * (HTTP.Request + error) :=
  match baseURL c with
  | None => (query, inr ErrInvalidBaseURL)
  | Some base =>
      match urlParse (pathJoin (URL.Path base) "/search") with
      | inr err => (query, inr (LibraryError err))
      | inl rel =>
          let u := ResolveReference base rel in
          let query := ensureCorrectFieldsParam query in
          let query :=
            match query with
            | Some m =>
                if negb (String.eqb (appName c) "")
                then Some (URL.Set_ m "client" (appName c))
                else query
            | None => query
            end in
          let u := URL.withRawQuery u (Encode query) in
          match NewRequest "GET" (URLString u) with
          | inr err => (query, inr (LibraryError err))
          | inl req => (query, inl (fold_left (fun r o => o r) options req))
          end
      end
  end.

(** [Search].  The deferred draining and closing of the body is not
    modelled. *)
Definition Search (c : Client) (query : URL.Values)
    (options : list (HTTP.Request -> HTTP.Request))
  : URL.Values * (Response * option error) :=
  let (query, built) := newSearchRequest c query options in
  match built with
  | inr err => (query, (zeroResponse, Some err))
  | inl req =>
      match httpClient c req with
      | inr err => (query, (zeroResponse, Some (LibraryError err)))
      | inl resp =>
          let meta := makeMeta req resp in
          let code := HTTP.StatusCode resp in
          if negb (code =? HTTP.StatusOK)%Z then
            if negb (isJSONResponse resp) then
              (query, (metaOnly meta,
                       Some (Errorf (GoStrings.Itoa code ++ " " ++ HTTP.StatusText code))))
            else
              match JSON.Decode validTime APIError (HTTP.Body resp) with
              | inr err =>
                  (query, (metaOnly meta,
                           Some (Errorf (GoStrings.Itoa code ++ " " ++ HTTP.StatusText code
                                         ++ "; JSON response body malformed ("
                                         ++ jsonErrorText err ++ ")"))))
              | inl ae => (query, (metaOnly meta, Some (APIErrorValue ae)))
              end
          else if negb (isJSONResponse resp) then
            (query, (metaOnly meta, Some ErrContentTypeNotJSON))
          else
            match makeResponse req resp with
            | (_, Some err) => (query, (metaOnly meta, Some err))
            | (response, None) => (query, (response, None))
            end
      end
  end.

End Package.

(** ** Stand-ins to run the package on examples

    A standard library that takes every time for valid, joins and
    parses paths without looking at them and builds a request for
    every URL, and a client whose transport answers every request with
    one response. *)

Definition exampleLib : StdLib :=
  {| validTime := fun _ => true;
     jsonErrorText := fun _ => "invalid JSON";
     pathJoin := fun dir file => (dir ++ file)%string;
     urlParse := fun path => inl (URL.mkURL "" "" path "");
     ResolveReference := fun base rel =>
       URL.mkURL (URL.Scheme base) (URL.Host base) (URL.Path rel) (URL.RawQuery rel);
     Encode := fun query => ("client=" ++ URL.Get query "client")%string;
     URLString := fun u =>
       (URL.Scheme u ++ "://" ++ URL.Host u ++ URL.Path u ++ "?" ++ URL.RawQuery u)%string;
     NewRequest := fun method url =>
       inl (HTTP.mkRequest method (URL.mkURL "" "" url "") ∅) |}.

Definition exampleClient (code : Z) (contentType body : string) : Client :=
  {| baseURL := Some (URL.mkURL "https" "search.b17g.services" "" "");
     appName := "app";
     httpClient := fun _ =>
       inl (HTTP.mkResponse code {[ "Content-Type" := [ contentType ] ]} body) |}.

(** A body whose second hit has no type. *)
Definition bodyWithoutType : string :=
  (GoStrings.quoted "{'total_hits':2,'assets':[{'type':'series','id':'s1'},{'video_id':'a1'}]}").

(** ** The tables of the hit types, looked at *)

(** The fields of a struct type. *)
Definition fieldsOf (t : JSON.gotype) : list (string * string * JSON.gotype) :=
  match t with
  | JSON.TStruct _ fields => fields
  | _ => []
  end.

Definition isTString (t : JSON.gotype) : bool :=
  match t with
  | JSON.TString => true
  | _ => false
  end.

(** A struct has its discriminator where the first pass reads it: the
    fields whose JSON name folds to TYPE are the fields with the Go
    name Type, they are strings, and there is one. *)
Definition typeTable (fields : list (string * string * JSON.gotype)) : bool :=
  forallb (fun f : string * string * JSON.gotype =>
             Bool.eqb (String.eqb (JSON.foldName (snd (fst f))) "TYPE")
                      (String.eqb (fst (fst f)) "Type")
             && (negb (String.eqb (fst (fst f)) "Type") || isTString (snd f)))
          fields
  && existsb (fun f : string * string * JSON.gotype => String.eqb (fst (fst f)) "Type")
             fields.

(** How the decoder names the kind of a JSON value in a type error
    of a text field. *)
Definition kindOf (j : JSON.value) : string :=
  match j with
  | JSON.Null => "null"
  | JSON.Bool _ => "bool"
  | JSON.Number _ => "number"
  | JSON.Str _ => "string"
  | JSON.Array _ => "array"
  | JSON.Object _ => "object"
  end.

(** The size of a JSON value: its nodes. *)
Fixpoint vsize (j : JSON.value) : nat :=
  match j with
  | JSON.Array els => S (list_sum (List.map vsize els))
  | JSON.Object ms =>
      S (list_sum (List.map (fun kv : string * JSON.value => vsize (snd kv)) ms))
  | _ => 1
  end.

Section Refusal.

Context `{StdLib}.

(** A member that the struct with these fields refuses: it has a field
    and its value never goes into that field without an error. *)
Definition refusedMember (fields : list (string * string * JSON.gotype))
    (key : string) (j : JSON.value) : Prop :=
  exists (name : string) (ft : JSON.gotype),
    JSON.findField fields key = Some (name, ft) /\
    forall (old v : JSON.goval) (saved : option JSON.error),
      JSON.store validTime ft j old saved <> JSON.Done v None.

End Refusal.

(** A list of texts without a text twice. *)
Fixpoint nodupb (l : list string) : bool :=
  match l with
  | [] => true
  | x :: rest => negb (existsb (String.eqb x) rest) && nodupb rest
  end.

(** A struct whose JSON names stay different under folding. *)
Definition foldUnique (fields : list (string * string * JSON.gotype)) : bool :=
  nodupb (List.map (fun f : string * string * JSON.gotype => JSON.foldName (snd (fst f)))
                   fields).

(** A decoding of one value that keeps a saved error. *)
Definition keepsError (value_ : JSON.gotype -> JSON.value -> JSON.goval ->
                                option JSON.error -> JSON.decoded JSON.goval)
    (j : JSON.value) : Prop :=
  forall t old e v s, value_ t j old (Some e) = JSON.Done v s -> s = Some e.


(** * Properties *)

(** ** The scanner has the fuel it needs *)

Module ScanFuel.
Import JSON.

Lemma skipSpace_length (s : string) :
  String.length (skipSpace s) <= String.length s.
Proof.
  induction s as [|c s IH]; simpl; [lia|].
  destruct (isSpace c); simpl; lia.
Qed.

Lemma skipSpace_cons (s : string) (c : ascii) (r : string) :
  skipSpace s = String c r -> String.length r < String.length s.
Proof.
  intros Hs. pose proof (skipSpace_length s) as Hl. rewrite Hs in Hl. simpl in Hl. lia.
Qed.

Lemma digits_length (s d r : string) :
  digits s = (d, r) -> String.length r <= String.length s.
Proof.
  revert d r. induction s as [|c s IH]; simpl; intros d r Hd.
  - inversion Hd. simpl. lia.
  - destruct (isDigit c).
    + destruct (digits s) as [d' r'] eqn:E. inversion Hd; subst.
      specialize (IH d' r eq_refl). lia.
    + inversion Hd. simpl. lia.
Qed.

Lemma digits1_scanned (s : string) :
  digits1 s <> OutOfFuel /\
  forall d r, digits1 s = Scanned d r -> String.length r <= String.length s.
Proof.
  unfold digits1. destruct (digits s) as [d r] eqn:E.
  pose proof (digits_length s d r E) as Hl.
  destruct d, r; split; try discriminate; intros d' r' Hd; inversion Hd; subst; assumption.
Qed.

Lemma scanInt_scanned (s : string) :
  scanInt s <> OutOfFuel /\
  forall i r, scanInt s = Scanned i r -> String.length r < String.length s.
Proof.
  unfold scanInt. destruct s as [|c s]; [split; discriminate|].
  destruct (Ascii.eqb c "0").
  - split; [discriminate|]. intros i r Hi. inversion Hi. simpl. lia.
  - destruct (isDigit c); [|split; discriminate].
    destruct (digits s) as [d r] eqn:E. pose proof (digits_length s d r E).
    split; [discriminate|]. intros i r' Hi. inversion Hi; subst. simpl. lia.
Qed.

Lemma bind_scanned {A B : Type} (m : scanned A) (k : A -> string -> scanned B)
    (b : B) (r : string) :
  bind m k = Scanned b r -> exists a r', m = Scanned a r' /\ k a r' = Scanned b r.
Proof. destruct m; simpl; [eauto|discriminate|discriminate]. Qed.

Lemma bind_fuel {A B : Type} (m : scanned A) (k : A -> string -> scanned B) :
  m <> OutOfFuel -> (forall a r, m = Scanned a r -> k a r <> OutOfFuel) ->
  bind m k <> OutOfFuel.
Proof. destruct m; simpl; [eauto|discriminate|congruence]. Qed.

Lemma scanFrac_scanned (s : string) :
  scanFrac s <> OutOfFuel /\
  forall f r, scanFrac s = Scanned f r -> String.length r <= String.length s.
Proof.
  unfold scanFrac. destruct s as [|c s]; [split; [discriminate|]; intros f r Hf; inversion Hf; lia|].
  destruct (Ascii.eqb c ".").
  - destruct (digits1_scanned s) as [Hfuel Hlen]. split.
    + apply bind_fuel; [assumption|discriminate].
    + intros f r (d & r' & Hd & Hk)%bind_scanned. inversion Hk; subst.
      specialize (Hlen d r Hd). simpl. lia.
  - split; [discriminate|]. intros f r Hf. inversion Hf. lia.
Qed.

Lemma scanExp_scanned (s : string) :
  scanExp s <> OutOfFuel /\
  forall e r, scanExp s = Scanned e r -> String.length r <= String.length s.
Proof.
  unfold scanExp. destruct s as [|c s]; [split; [discriminate|]; intros f r Hf; inversion Hf; lia|].
  destruct (Ascii.eqb c "e" || Ascii.eqb c "E").
  - destruct s as [|g s']; [split; discriminate|].
    destruct (Ascii.eqb g "+" || Ascii.eqb g "-").
    + destruct (digits1_scanned s') as [Hfuel Hlen]. split.
      * apply bind_fuel; [assumption|discriminate].
      * intros f r (d & r' & Hd & Hk)%bind_scanned. inversion Hk; subst.
        specialize (Hlen d r Hd). simpl. lia.
    + destruct (digits1_scanned (String g s')) as [Hfuel Hlen]. split.
      * apply bind_fuel; [assumption|discriminate].
      * intros f r (d & r' & Hd & Hk)%bind_scanned. inversion Hk; subst.
        specialize (Hlen d r Hd). simpl in *. lia.
  - split; [discriminate|]. intros f r Hf. inversion Hf. lia.
Qed.

Lemma scanNumber_scanned (s : string) :
  scanNumber s <> OutOfFuel /\
  forall lit r, scanNumber s = Scanned lit r -> String.length r < String.length s.
Proof.
  unfold scanNumber.
  set (p := match s with
            | String c r => if Ascii.eqb c "-" then ("-", r) else ("", s)
            | EmptyString => ("", s)
            end).
  assert (Hp : String.length (snd p) <= String.length s).
  { subst p. destruct s as [|c s]; simpl; [lia|]. destruct (Ascii.eqb c "-"); simpl; lia. }
  destruct p as [sign s1]. simpl in Hp.
  destruct (scanInt_scanned s1) as [Hf1 Hl1]. split.
  - apply bind_fuel; [assumption|]. intros i s2 _.
    destruct (scanFrac_scanned s2) as [Hf2 _].
    apply bind_fuel; [assumption|]. intros f s3 _.
    destruct (scanExp_scanned s3) as [Hf3 _].
    apply bind_fuel; [assumption|discriminate].
  - intros lit r (i & s2 & Hi & Hk)%bind_scanned.
    apply bind_scanned in Hk as (f & s3 & Hfr & Hk).
    apply bind_scanned in Hk as (e & s4 & He & Hk).
    inversion Hk; subst.
    specialize (Hl1 i s2 Hi).
    destruct (scanFrac_scanned s2) as [_ Hl2]. specialize (Hl2 f s3 Hfr).
    destruct (scanExp_scanned s3) as [_ Hl3]. specialize (Hl3 e r He). lia.
Qed.

Lemma expect_scanned (lit s : string) :
  expect lit s <> OutOfFuel /\
  forall u r, expect lit s = Scanned u r -> String.length r <= String.length s.
Proof.
  revert s. induction lit as [|c lit IH]; intros s; simpl.
  - split; [discriminate|]. intros u r Hu. inversion Hu. lia.
  - destruct s as [|d s]; [split; discriminate|].
    destruct (Ascii.eqb c d); [|split; discriminate].
    destruct (IH s) as [Hf Hl]. split; [assumption|].
    intros u r Hu. specialize (Hl u r Hu). simpl. lia.
Qed.

Lemma prepend_scanned (p : string) (m : scanned string) (t r : string) :
  prepend p m = Scanned t r -> exists t', m = Scanned t' r.
Proof.
  unfold prepend. intros (t' & r' & Hm & Hk)%bind_scanned. inversion Hk; subst. eauto.
Qed.

Lemma prepend_fuel (p : string) (m : scanned string) :
  m <> OutOfFuel -> prepend p m <> OutOfFuel.
Proof. intros Hm. unfold prepend. apply bind_fuel; [assumption|discriminate]. Qed.

(** A leaf of [scanChars]: a result at once, or the scan of what is
    left of the text. *)
Ltac chars_leaf IH :=
  first
    [ solve [ split; [discriminate|]; intros ? ? Hs; inversion Hs; subst; simpl; lia ]
    | match goal with
      | |- prepend ?p (scanChars ?x) <> _ /\ _ =>
          let Hf := fresh "Hf" in
          let Hl := fresh "Hl" in
          let Ht := fresh "Ht" in
          destruct (IH x) as [Hf Hl]; [simpl in *; lia|];
          split;
          [ apply prepend_fuel; exact Hf
          | intros t r Ht; apply prepend_scanned in Ht as (t' & Ht);
            specialize (Hl t' r Ht); simpl in *; lia ]
      end ].

Lemma scanChars_scanned (n : nat) (s : string) :
  String.length s <= n ->
  scanChars s <> OutOfFuel /\
  forall t r, scanChars s = Scanned t r -> String.length r < String.length s.
Proof.
  revert s. induction n as [|n IH]; intros s Hn.
  - destruct s; [|simpl in Hn; lia]. simpl. split; discriminate.
  - destruct s as [|c s1]; [simpl; split; discriminate|].
    cbn [scanChars]. simpl in Hn.
    destruct (Ascii.eqb c "034"); [chars_leaf IH|].
    destruct (Ascii.eqb c "\").
    + destruct s1 as [|e s2]; [chars_leaf IH|]. simpl in Hn.
      destruct (simpleEscape e); [chars_leaf IH|].
      destruct (Ascii.eqb e "u"); [|chars_leaf IH].
      destruct s2 as [|h1 [|h2 [|h3 [|h4 s3]]]]; try chars_leaf IH.
      simpl in Hn.
      destruct (hex4 h1 h2 h3 h4) as [r0|]; [|chars_leaf IH].
      destruct (isSurrogate r0); [|chars_leaf IH].
      destruct s3 as [|a1 [|a2 [|a3 [|a4 [|a5 [|a6 s4]]]]]]; try chars_leaf IH.
      simpl in Hn.
      destruct (lowSurrogate _) as [[r1 r2]|]; [|chars_leaf IH].
      destruct (decodePair r0 r1 =? replacementChar)%N; chars_leaf IH.
    + destruct (N_of_ascii c <? 32)%N; chars_leaf IH.
Qed.

(** What the three scanners leave is shorter than what they got. *)
Ltac scan_step :=
  match goal with
  | H : Failed _ = Scanned _ _ |- _ => discriminate H
  | H : OutOfFuel = Scanned _ _ |- _ => discriminate H
  | H : Scanned _ _ = Scanned _ _ |- _ => inversion H; subst; clear H
  | H : bind _ _ = Scanned _ _ |- _ =>
      let a := fresh "a" in let r := fresh "r" in
      let H1 := fresh "Hscan" in
      apply bind_scanned in H as (a & r & H1 & H)
  | H : context [match skipSpace ?x with _ => _ end] |- _ =>
      let E := fresh "Eskip" in
      destruct (skipSpace x) eqn:E; [|apply skipSpace_cons in E]
  | H : context [if ?b then _ else _] |- _ => destruct b
  end.

Ltac scan_fact :=
  match goal with
  | H : scanChars ?s = Scanned ?t ?r |- _ =>
      apply (proj2 (scanChars_scanned (String.length s) s (Nat.le_refl _))) in H
  | H : scanNumber ?s = Scanned ?t ?r |- _ => apply (proj2 (scanNumber_scanned s)) in H
  | H : expect ?l ?s = Scanned ?t ?r |- _ => apply (proj2 (expect_scanned l s)) in H
  end.

Lemma scan_length (fuel : nat) :
  (forall s v r, scanValue fuel s = Scanned v r -> String.length r < String.length s) /\
  (forall s vs r, scanElements fuel s = Scanned vs r -> String.length r < String.length s) /\
  (forall s ms r, scanMembers fuel s = Scanned ms r -> String.length r < String.length s).
Proof.
  induction fuel as [|fuel (IHv & IHe & IHm)]; [repeat split; intros; discriminate|].
  repeat split.
  - intros s v r Hs. cbn [scanValue] in Hs. repeat scan_step; repeat scan_fact;
      try match goal with H : scanMembers fuel _ = Scanned _ _ |- _ => apply IHm in H end;
      try match goal with H : scanElements fuel _ = Scanned _ _ |- _ => apply IHe in H end;
      simpl in *; lia.
  - intros s vs r Hs. cbn [scanElements] in Hs. repeat scan_step;
      repeat match goal with H : scanValue fuel _ = Scanned _ _ |- _ => apply IHv in H end;
      repeat match goal with H : scanElements fuel _ = Scanned _ _ |- _ => apply IHe in H end;
      simpl in *; lia.
  - intros s ms r Hs. cbn [scanMembers] in Hs. repeat scan_step; repeat scan_fact;
      repeat match goal with H : scanValue fuel _ = Scanned _ _ |- _ => apply IHv in H end;
      repeat match goal with H : scanMembers fuel _ = Scanned _ _ |- _ => apply IHm in H end;
      simpl in *; lia.
Qed.

Ltac fuel_step :=
  match goal with
  | |- Failed _ <> OutOfFuel => discriminate
  | |- Scanned _ _ <> OutOfFuel => discriminate
  | |- bind _ _ <> OutOfFuel =>
      let a := fresh "a" in let r := fresh "r" in
      let H1 := fresh "Hscan" in
      apply bind_fuel; [|intros a r H1]
  | |- context [match skipSpace ?x with _ => _ end] =>
      let E := fresh "Eskip" in
      destruct (skipSpace x) eqn:E; [|apply skipSpace_cons in E]
  | |- context [if ?b then _ else _] => destruct b
  | |- scanChars ?s <> OutOfFuel =>
      apply (proj1 (scanChars_scanned (String.length s) s (Nat.le_refl _)))
  | |- scanNumber ?s <> OutOfFuel => apply (proj1 (scanNumber_scanned s))
  | |- expect ?l ?s <> OutOfFuel => apply (proj1 (expect_scanned l s))
  end.

Ltac length_facts fuel :=
  repeat scan_fact;
  repeat match goal with
    | H : scanValue fuel _ = Scanned _ _ |- _ => apply (proj1 (scan_length fuel)) in H
    | H : scanElements fuel _ = Scanned _ _ |- _ =>
        apply (proj1 (proj2 (scan_length fuel))) in H
    | H : scanMembers fuel _ = Scanned _ _ |- _ =>
        apply (proj2 (proj2 (scan_length fuel))) in H
    end.

Lemma scan_fuel (fuel : nat) :
  (forall s, 2 * String.length s < fuel -> scanValue fuel s <> OutOfFuel) /\
  (forall s, 2 * String.length s + 1 < fuel -> scanElements fuel s <> OutOfFuel) /\
  (forall s, 2 * String.length s + 1 < fuel -> scanMembers fuel s <> OutOfFuel).
Proof.
  induction fuel as [|fuel (IHv & IHe & IHm)]; [repeat split; intros; lia|].
  repeat split.
  - intros s Hs. cbn [scanValue]. repeat fuel_step.
    + apply IHm. simpl in *. lia.
    + apply IHe. simpl in *. lia.
  - intros s Hs. cbn [scanElements]. repeat fuel_step.
    + apply IHv. lia.
    + length_facts fuel. apply IHe. simpl in *. lia.
  - intros s Hs. cbn [scanMembers]. repeat fuel_step.
    + length_facts fuel. apply IHv. simpl in *. lia.
    + length_facts fuel. apply IHm. simpl in *. lia.
Qed.

(** The scan of a body does not end for want of fuel. *)
Lemma scanValue_fuel (body : string) : scanValue (fuelFor body) body <> OutOfFuel.
Proof. apply (proj1 (scan_fuel (fuelFor body))). unfold fuelFor. lia. Qed.

(** So [scanFirst] gives the value at the front of the body or the
    error of the scanner. *)
Lemma scanFirst_scanValue (body : string) :
  skipSpace body <> "" ->
  match scanValue (fuelFor body) body with
  | Scanned v _ => scanFirst body = inl v
  | Failed e => scanFirst body = inr e
  | OutOfFuel => False
  end.
Proof.
  intros Hne. pose proof (scanValue_fuel body) as Hfuel. unfold scanFirst.
  destruct (skipSpace body); [congruence|].
  now destruct (scanValue (fuelFor body) body).
Qed.

End ScanFuel.

(** ** Splitting and trimming *)

Lemma Split_nonempty (s : string) (sep : ascii) : GoStrings.Split s sep <> [].
Proof.
  destruct s as [|c s]; simpl; [discriminate|].
  destruct (Ascii.eqb c sep); [discriminate|].
  destruct (GoStrings.Split s sep); discriminate.
Qed.

(** Splitting a text with a separator in it: the pieces of the part
    before, then the pieces of the part after. *)
Lemma Split_app (s t : string) (sep : ascii) :
  GoStrings.Split (s ++ String sep t) sep
  = GoStrings.Split s sep ++ GoStrings.Split t sep.
Proof.
  induction s as [|c s IH]; simpl.
  - rewrite Ascii.eqb_refl. reflexivity.
  - destruct (Ascii.eqb c sep); [now rewrite IH|].
    rewrite IH. pose proof (Split_nonempty s sep) as Hne.
    destruct (GoStrings.Split s sep); [contradiction|reflexivity].
Qed.

Lemma hasTypeField_In (fields : string) :
  hasTypeField fields = true <-> In "type" (GoStrings.Split fields ","%char).
Proof.
  unfold hasTypeField. rewrite existsb_exists. split.
  - intros (f & Hin & Heq). apply String.eqb_eq in Heq. now subst.
  - intros Hin. exists "type". split; [assumption|reflexivity].
Qed.

Lemma Get_nonempty_Some (query : URL.Values) (key : string) :
  URL.Get query key <> "" ->
  exists m vs, query = Some m /\ m !! key = Some (URL.Get query key :: vs).
Proof.
  destruct query as [m|]; simpl; [|congruence].
  destruct (m !! key) as [[|x vs]|] eqn:E; try congruence.
  intros _. eauto.
Qed.

(** ** The query normaliser *)

(** C7.  With a fields parameter that is not empty: when "type" is not
    among its comma-separated entries, the parameter becomes the old
    value with ",type" after it, so that the entries are the old ones
    and one "type", and nothing else in the query changes; when "type"
    is among the entries the query stays as it is.  With no fields
    parameter (a nil query, or a query without the key) the query stays
    as it is, and so it does when the first value of the parameter is
    empty. *)
Theorem ensureCorrectFieldsParam_spec (query : URL.Values) :
  let fields := URL.Get query "fields" in
  (fields <> "" -> ~ In "type" (GoStrings.Split fields ","%char) ->
     (exists m, query = Some m /\
        ensureCorrectFieldsParam query
        = Some (<[ "fields" := [ (fields ++ ",type")%string ] ]> m)) /\
     URL.Get (ensureCorrectFieldsParam query) "fields" = (fields ++ ",type")%string /\
     GoStrings.Split (URL.Get (ensureCorrectFieldsParam query) "fields") ","%char
     = GoStrings.Split fields ","%char ++ [ "type" ]) /\
  (fields <> "" -> In "type" (GoStrings.Split fields ","%char) ->
     ensureCorrectFieldsParam query = query) /\
  (query = None \/ (exists m, query = Some m /\ m !! "fields" = None) ->
     ensureCorrectFieldsParam query = query) /\
  (fields = "" -> ensureCorrectFieldsParam query = query).
Proof.
  intros fields. split; [|split; [|split]].
  - intros Hne Hlacks.
    destruct (Get_nonempty_Some query "fields" Hne) as (m & vs & -> & Hm).
    assert (Hrun : ensureCorrectFieldsParam (Some m)
                   = Some (<[ "fields" := [ (fields ++ ",type")%string ] ]> m)).
    { unfold ensureCorrectFieldsParam. fold fields.
      apply String.eqb_neq in Hne. rewrite Hne. simpl.
      destruct (hasTypeField fields) eqn:E; [|reflexivity].
      apply hasTypeField_In in E. contradiction. }
    assert (Hget : URL.Get (ensureCorrectFieldsParam (Some m)) "fields"
                   = (fields ++ ",type")%string).
    { rewrite Hrun. simpl. now rewrite lookup_insert_eq. }
    split; [eauto|]. split; [exact Hget|].
    rewrite Hget. apply (Split_app fields "type" ","%char).
  - intros Hne Hin. unfold ensureCorrectFieldsParam. fold fields.
    apply hasTypeField_In in Hin. rewrite Hin. simpl.
    destruct (negb (fields =? "")%string); [|reflexivity].
    now destruct query.
  - intros [->|(m & -> & Hm)]; [reflexivity|].
    unfold ensureCorrectFieldsParam. simpl. now rewrite Hm.
  - intros Hempty. unfold ensureCorrectFieldsParam. fold fields. now rewrite Hempty.
Qed.

(** ** The content type *)

Lemma allSpace_nil : allSpace "".
Proof. intros c []. Qed.

Lemma allSpace_cons (c : ascii) (s : string) :
  allSpace (String c s) <-> GoStrings.isSpace c = true /\ allSpace s.
Proof.
  unfold allSpace. simpl. split.
  - intros Hall. split; [apply Hall; now left|]. intros d Hd. apply Hall. now right.
  - intros [Hc Hs] d [<-|Hd]; auto.
Qed.

Lemma append_String (c : ascii) (s t : string) :
  (String c s ++ t)%string = String c (s ++ t).
Proof. reflexivity. Qed.

Lemma append_empty (t : string) : ("" ++ t)%string = t.
Proof. reflexivity. Qed.

Lemma append_assoc (s t u : string) :
  (s ++ (t ++ u))%string = ((s ++ t) ++ u)%string.
Proof.
  induction s as [|c s IH]; [reflexivity|].
  rewrite !append_String. now f_equal.
Qed.

Lemma TrimLeft_split (s : string) :
  exists pre, allSpace pre /\ s = (pre ++ GoStrings.TrimLeft s)%string.
Proof.
  induction s as [|c s (pre & Hpre & IH)]; simpl.
  - exists "". split; [apply allSpace_nil|reflexivity].
  - destruct (GoStrings.isSpace c) eqn:E.
    + exists (String c pre). split; [now apply allSpace_cons|]. rewrite append_String. now f_equal.
    + exists "". split; [apply allSpace_nil|reflexivity].
Qed.

Lemma TrimRight_split (s : string) :
  exists post, allSpace post /\ s = (GoStrings.TrimRight s ++ post)%string.
Proof.
  induction s as [|c s (post & Hpost & IH)]; simpl.
  - exists "". split; [apply allSpace_nil|reflexivity].
  - destruct (GoStrings.TrimRight s) as [|d t] eqn:E.
    + destruct (GoStrings.isSpace c) eqn:Ec.
      * exists (String c post). split; [now apply allSpace_cons|]. rewrite append_empty in *. now f_equal.
      * exists post. split; [assumption|]. rewrite append_empty in IH. rewrite append_String, append_empty. now f_equal.
    + exists post. split; [assumption|]. rewrite append_String. now f_equal.
Qed.

Lemma Before_split (s : string) (sep : ascii) :
  s = GoStrings.Before s sep
  \/ exists params, s = (GoStrings.Before s sep ++ String sep params)%string.
Proof.
  induction s as [|c s IH]; simpl; [now left|].
  destruct (Ascii.eqb c sep) eqn:E.
  - apply Ascii.eqb_eq in E. subst. right. now exists s.
  - destruct IH as [IH|(p & IH)]; [left|right; exists p]; rewrite ?append_String; now f_equal.
Qed.

Lemma TrimLeft_app_space (pre s : string) :
  allSpace pre -> GoStrings.TrimLeft (pre ++ s) = GoStrings.TrimLeft s.
Proof.
  induction pre as [|c pre IH]; [reflexivity|].
  intros [Hc Hpre]%allSpace_cons. rewrite append_String. simpl. rewrite Hc. auto.
Qed.

Lemma TrimRight_space (post : string) :
  allSpace post -> GoStrings.TrimRight post = "".
Proof.
  induction post as [|c post IH]; simpl; [reflexivity|].
  intros [Hc Hpost]%allSpace_cons. rewrite (IH Hpost). now rewrite Hc.
Qed.

Lemma TrimRight_app_space (s post : string) :
  allSpace post -> GoStrings.TrimRight (s ++ post) = GoStrings.TrimRight s.
Proof.
  intros Hpost. induction s as [|c s IH].
  - now apply TrimRight_space.
  - rewrite append_String. simpl. now rewrite IH.
Qed.

(** A text without the separator is all before it. *)
Lemma Before_app (a params : string) (sep : ascii) :
  ~ In sep (list_ascii_of_string a) ->
  GoStrings.Before a sep = a /\ GoStrings.Before (a ++ String sep params) sep = a.
Proof.
  induction a as [|c a IH]; rewrite ?append_String, ?append_empty; simpl.
  - intros _. now rewrite Ascii.eqb_refl.
  - intros Hnot. destruct (Ascii.eqb c sep) eqn:E.
    + apply Ascii.eqb_eq in E. subst. exfalso. apply Hnot. now left.
    + destruct IH as [IH1 IH2]; [intros Hin; apply Hnot; now right|].
      now rewrite IH1, IH2.
Qed.

Lemma allSpace_no_semicolon (s : string) :
  allSpace s -> ~ In ";"%char (list_ascii_of_string s).
Proof. intros Hs Hin. apply Hs in Hin. discriminate. Qed.

Lemma list_ascii_app (s t : string) :
  list_ascii_of_string (s ++ t) = list_ascii_of_string s ++ list_ascii_of_string t.
Proof.
  induction s as [|c s IH]; [reflexivity|].
  rewrite append_String. simpl. now rewrite IH.
Qed.

(** C9.  A content type is JSON exactly when it is application/json, in
    these very letters, with white space before and after it at most,
    and then either nothing or a semicolon and whatever parameters; a
    response without a Content-Type header is not JSON; the five cases
    of the test of the package are classified as the test expects. *)
Theorem isJSONResponse_spec :
  (forall contentType : string,
      isJSONMediaType contentType = true <->
      exists pre post : string,
        allSpace pre /\ allSpace post /\
        (contentType = (pre ++ "application/json" ++ post)%string \/
         exists params : string,
           contentType = (pre ++ "application/json" ++ post ++ ";" ++ params)%string)) /\
  (forall (code : Z) (header : HTTP.Header) (body : string),
      header !! "Content-Type" = None ->
      isJSONResponse (HTTP.mkResponse code header body) = false) /\
  (forall (code : Z) (header : HTTP.Header) (body contentType : string) (more : list string),
      header !! "Content-Type" = Some (contentType :: more) ->
      isJSONResponse (HTTP.mkResponse code header body) = isJSONMediaType contentType) /\
  isJSONMediaType "application/json; charset=utf-8" = true /\
  isJSONMediaType "application/json; charset=iso-8859-1" = true /\
  isJSONMediaType "application/json" = true /\
  isJSONMediaType "text/plain" = false /\
  isJSONMediaType "randomnoiseapplication/jsonrandomnoise" = false.
Proof.
  split; [|repeat split].
  - intros ct. unfold isJSONMediaType, GoStrings.TrimSpace. rewrite String.eqb_eq. split.
    + intros Hcore.
      destruct (TrimLeft_split (GoStrings.Before ct ";"%char)) as (pre & Hpre & Hl).
      destruct (TrimRight_split (GoStrings.TrimLeft (GoStrings.Before ct ";"%char)))
        as (post & Hpost & Hr).
      rewrite Hcore in Hr. rewrite Hr in Hl.
      exists pre, post. repeat split; try assumption.
      destruct (Before_split ct ";"%char) as [Hb|(params & Hb)].
      * left. now rewrite Hb.
      * right. exists params. rewrite Hb at 1. rewrite Hl.
        now rewrite <- !append_assoc.
    + intros (pre & post & Hpre & Hpost & Hct).
      assert (Hno : ~ In ";"%char (list_ascii_of_string (pre ++ "application/json" ++ post))).
      { rewrite !list_ascii_app, !in_app_iff.
        intros [Hin|[Hin|Hin]].
        - now apply (allSpace_no_semicolon pre).
        - simpl in Hin. repeat (destruct Hin as [Hin|Hin]; [discriminate|]). contradiction.
        - now apply (allSpace_no_semicolon post). }
      assert (Hb : GoStrings.Before ct ";"%char = (pre ++ "application/json" ++ post)%string).
      { destruct Hct as [->|(params & ->)].
        - now apply (Before_app _ "" ";"%char).
        - replace (pre ++ "application/json" ++ post ++ ";" ++ params)%string
            with ((pre ++ "application/json" ++ post) ++ String ";" params)%string
            by now rewrite <- !append_assoc.
          now apply Before_app. }
      rewrite Hb, (TrimLeft_app_space pre _ Hpre).
      change (GoStrings.TrimLeft ("application/json" ++ post))
        with ("application/json" ++ post)%string.
      now rewrite (TrimRight_app_space "application/json" post Hpost).
  - intros code header body Hnone. unfold isJSONResponse, HTTP.Get. simpl. now rewrite Hnone.
  - intros code header body ct more Hsome. unfold isJSONResponse, HTTP.Get. simpl.
    now rewrite Hsome.
Qed.

(** ** The hit decoder *)

Section HitDecoder.

Context `{StdLib}.

Lemma addHits_nil (response : Response) : addHits response [] = response.
Proof. destruct response. unfold addHits. simpl. now rewrite app_nil_r. Qed.

Lemma addHits_app (response : Response) (l1 l2 : list Hit) :
  addHits (addHits response l1) l2 = addHits response (l1 ++ l2).
Proof. unfold addHits. simpl. now rewrite app_assoc. Qed.

Lemma addHits_appendHit (response : Response) (hit : Hit) (hits : list Hit) :
  addHits (appendHit response hit) hits = addHits response (hit :: hits).
Proof. unfold addHits, appendHit. simpl. now rewrite <- app_assoc. Qed.

(** One turn of the loop, told by what it does with the element
    alone. *)
Lemma decodeHits_cons (h : JSON.goval) (rest : list JSON.goval) (response : Response) :
  (exists hit, decodesTo h hit /\
     decodeHits (h :: rest) response = decodeHits rest (appendHit response hit)) \/
  (exists e, failsWith h e /\ decodeHits (h :: rest) response = (response, Some e)).
Proof.
  unfold decodesTo, failsWith. simpl.
  destruct (unmarshalRaw typeOnly h) as [t|e]; [|right; eauto].
  destruct (String.eqb (stringField t "Type") ""); [right; eauto|].
  destruct (String.eqb (stringField t "Type") "series").
  - destruct (unmarshalRaw Series h) as [s|e]; [left|right]; eauto.
  - destruct (unmarshalRaw Asset h) as [a|e]; [left|right]; eauto.
Qed.

Lemma decodesTo_failsWith (h : JSON.goval) (hit : Hit) (e : error) :
  decodesTo h hit -> failsWith h e -> False.
Proof. unfold decodesTo, failsWith. congruence. Qed.

Lemma decodesTo_inj (h : JSON.goval) (hit hit' : Hit) :
  decodesTo h hit -> decodesTo h hit' -> hit = hit'.
Proof. unfold decodesTo, appendHit. simpl. congruence. Qed.

Lemma failsWith_inj (h : JSON.goval) (e e' : error) :
  failsWith h e -> failsWith h e' -> e = e'.
Proof. unfold failsWith. congruence. Qed.

Lemma decodeHits_decodesTo (h : JSON.goval) (hit : Hit)
    (rest : list JSON.goval) (response : Response) :
  decodesTo h hit ->
  decodeHits (h :: rest) response = decodeHits rest (appendHit response hit).
Proof.
  intros Hd. destruct (decodeHits_cons h rest response) as [(hit' & Hd' & ->)|(e & Hf & _)].
  - now rewrite (decodesTo_inj h hit hit').
  - destruct (decodesTo_failsWith h hit e Hd Hf).
Qed.

Lemma decodeHits_failsWith (h : JSON.goval) (e : error)
    (rest : list JSON.goval) (response : Response) :
  failsWith h e -> decodeHits (h :: rest) response = (response, Some e).
Proof.
  intros Hf. destruct (decodeHits_cons h rest response) as [(hit & Hd & _)|(e' & Hf' & ->)].
  - destruct (decodesTo_failsWith h hit e Hd Hf).
  - now rewrite (failsWith_inj h e e').
Qed.

(** The elements that decode are passed over, their hits added in
    their order. *)
Lemma decodeHits_prefix (before : list JSON.goval) (hits : list Hit)
    (rest : list JSON.goval) (response : Response) :
  Forall2 decodesTo before hits ->
  decodeHits (before ++ rest) response = decodeHits rest (addHits response hits).
Proof.
  intros Hall. revert response.
  induction Hall as [|h hit before hits Hd Hall IH]; intros response.
  - now rewrite addHits_nil.
  - rewrite <- app_comm_cons, (decodeHits_decodesTo h hit), IH by assumption.
    now rewrite addHits_appendHit.
Qed.

(** What the loop returns: without an error, all the elements were
    decoded; with an error, the elements before the one that failed. *)
Lemma decodeHits_result (hs : list JSON.goval) (response : Response) :
  (exists hits, Forall2 decodesTo hs hits /\
     decodeHits hs response = (addHits response hits, None)) \/
  (exists before h rest hits e,
     hs = before ++ h :: rest /\ Forall2 decodesTo before hits /\ failsWith h e /\
     decodeHits hs response = (addHits response hits, Some e)).
Proof.
  revert response. induction hs as [|h hs IH]; intros response.
  - left. exists []. split; [constructor|]. now rewrite addHits_nil.
  - destruct (decodeHits_cons h hs response) as [(hit & Hd & ->)|(e & Hf & ->)].
    + destruct (IH (appendHit response hit))
        as [(hits & Hall & ->)|(before & h' & rest & hits & e & -> & Hall & Hf & ->)].
      * left. exists (hit :: hits). split; [now constructor|].
        now rewrite addHits_appendHit.
      * right. exists (h :: before), h', rest, (hit :: hits), e.
        repeat split; try assumption; [now constructor|].
        now rewrite addHits_appendHit.
    + right. exists [], h, hs, [], e. repeat split; try assumption; [constructor|].
      now rewrite addHits_nil.
Qed.

End HitDecoder.

(** ** The response of the decoder *)

Section MakeResponse.

Context `{StdLib}.

(** What [makeResponse] returns for a body whose envelope decodes. *)
Lemma makeResponse_result (req : HTTP.Request) (resp : HTTP.Response) (v : JSON.goval) :
  JSON.Decode validTime envelope (HTTP.Body resp) = inl v ->
  (exists hits, Forall2 decodesTo (sliceField v "Hits") hits /\
     makeResponse req resp
     = ({| TotalHits := intField v "TotalHits"; Hits := hits;
           Meta_ := makeMeta req resp |}, None)) \/
  (exists before h rest hits e,
     sliceField v "Hits" = before ++ h :: rest /\
     Forall2 decodesTo before hits /\ failsWith h e /\
     makeResponse req resp
     = ({| TotalHits := intField v "TotalHits"; Hits := hits;
           Meta_ := makeMeta req resp |}, Some e)).
Proof.
  intros Hv. unfold makeResponse. rewrite Hv.
  destruct (decodeHits_result (sliceField v "Hits")
              {| TotalHits := intField v "TotalHits"; Hits := [];
                 Meta_ := makeMeta req resp |})
    as [(hits & Hall & Hres)|(before & h & rest & hits & e & Hsplit & Hall & Hf & Hres)];
    rewrite Hres; unfold addHits; simpl.
  - left. eauto.
  - right. exists before, h, rest, hits, e. auto.
Qed.

(** The discriminator of an element that the loop turned into a hit. *)
Lemma decodesTo_variant (h : JSON.goval) (hit : Hit) :
  decodesTo h hit ->
  exists t, unmarshalRaw typeOnly h = inl t /\ stringField t "Type" <> "" /\
    if String.eqb (stringField t "Type") "series"
    then exists series, unmarshalRaw Series h = inl series /\ hit = HitSeries series
    else exists asset, unmarshalRaw Asset h = inl asset /\ hit = HitAsset asset.
Proof.
  unfold decodesTo. simpl.
  destruct (unmarshalRaw typeOnly h) as [t|e]; [|discriminate].
  destruct (String.eqb (stringField t "Type") "") eqn:Eempty; [discriminate|].
  apply String.eqb_neq in Eempty. intros Hrun. exists t. repeat split; [assumption|].
  destruct (String.eqb (stringField t "Type") "series").
  - destruct (unmarshalRaw Series h) as [s|e]; [|discriminate].
    exists s. split; [reflexivity|]. now inversion Hrun.
  - destruct (unmarshalRaw Asset h) as [a|e]; [|discriminate].
    exists a. split; [reflexivity|]. now inversion Hrun.
Qed.

(** The hits of a response stand at the places of their elements. *)
Lemma makeResponse_lookup (req : HTTP.Request) (resp : HTTP.Response) (v : JSON.goval)
    (i : nat) (hit : Hit) :
  JSON.Decode validTime envelope (HTTP.Body resp) = inl v ->
  Hits (fst (makeResponse req resp)) !! i = Some hit ->
  exists h, sliceField v "Hits" !! i = Some h /\ decodesTo h hit.
Proof.
  intros Hv.
  destruct (makeResponse_result req resp v Hv)
    as [(hits & Hall & ->)|(before & h & rest & hits & e & -> & Hall & Hf & ->)];
    simpl; intros Hi.
  - apply (Forall2_lookup_r _ _ _ _ _ Hall Hi).
  - destruct (Forall2_lookup_r _ _ _ _ _ Hall Hi) as (x & Hx & Hd).
    exists x. split; [|assumption]. now apply lookup_app_l_Some.
Qed.

(** C8.  The hit at place i of the response is what the loop makes of
    element i of the array, whatever the outcome, and a response
    without an error has a hit for every element and the total of the
    body; the body of the example gives the total 2, a Series with
    the ID s1 and then an Asset with the VideoID a1. *)
Theorem makeResponse_order_preserving :
  (forall (req : HTTP.Request) (resp : HTTP.Response) (v : JSON.goval)
          (response : Response) (err : option error),
      JSON.Decode validTime envelope (HTTP.Body resp) = inl v ->
      makeResponse req resp = (response, err) ->
      (forall (i : nat) (hit : Hit),
          Hits response !! i = Some hit ->
          exists h, sliceField v "Hits" !! i = Some h /\ decodesTo h hit) /\
      (err = None ->
         TotalHits response = intField v "TotalHits" /\
         length (Hits response) = length (sliceField v "Hits"))) /\
  (forall (req : HTTP.Request) (header : HTTP.Header),
      exists series asset : JSON.goval,
        makeResponse req
          (HTTP.mkResponse 200 header
             (GoStrings.quoted "{'total_hits':2,'assets':[{'type':'series','id':'s1'},{'type':'movie','video_id':'a1'}]}"))
        = ({| TotalHits := 2;
              Hits := [ HitSeries series; HitAsset asset ];
              Meta_ := {| StatusCode := 200; Header := header;
                          RequestURL := Some (HTTP.URL req) |} |}, None) /\
        stringField series "ID" = "s1" /\
        stringField asset "VideoID" = "a1").
Proof.
  split.
  - intros req resp v response err Hv Hrun. split.
    + intros i hit Hi. apply (makeResponse_lookup req resp v i hit Hv).
      now rewrite Hrun.
    + intros ->.
      destruct (makeResponse_result req resp v Hv)
        as [(hits & Hall & Hres)|(before & h & rest & hits & e & _ & _ & _ & Hres)];
        rewrite Hres in Hrun; inversion Hrun; subst; simpl.
      split; [reflexivity|]. symmetry. apply (Forall2_length _ _ _ Hall).
  - intros req header. eexists. eexists. split; [vm_compute; reflexivity|].
    split; vm_compute; reflexivity.
Qed.

(** An element without a discriminator stops the loop. *)
Lemma failsWith_ErrTypeMissing (h t : JSON.goval) :
  unmarshalRaw typeOnly h = inl t -> stringField t "Type" = "" ->
  failsWith h ErrTypeMissing.
Proof. intros Ht He. unfold failsWith. simpl. now rewrite Ht, He. Qed.

(** A JSON object without a member for the field Type has no
    discriminator, and neither has one whose member is the empty
    string or null. *)
Lemma findField_typeOnly_absent (key : string) :
  JSON.foldName key <> "TYPE" ->
  JSON.findField [ ("Type", "Type", JSON.TString) ] key = None.
Proof.
  intros Habs. unfold JSON.findField. cbn [List.find fst snd].
  destruct (String.eqb "Type" key) eqn:E1.
  - apply String.eqb_eq in E1. subst key. now contradiction Habs.
  - change (JSON.foldName "Type") with "TYPE".
    destruct (String.eqb "TYPE" (JSON.foldName key)) eqn:E2; [|reflexivity].
    apply String.eqb_eq in E2. now contradiction Habs.
Qed.

Lemma storeMembers_absent (ms : list (string * JSON.value))
    (cur : list (string * JSON.goval)) (saved : option JSON.error) :
  (forall kv, In kv ms -> JSON.foldName (fst kv) <> "TYPE") ->
  JSON.storeMembers (JSON.store validTime) [ ("Type", "Type", JSON.TString) ] ms cur saved
  = JSON.Done cur saved.
Proof.
  induction ms as [|kv ms IH]; intros Habs; [reflexivity|].
  cbn [JSON.storeMembers].
  rewrite findField_typeOnly_absent by (apply Habs; now left).
  apply IH. intros kv' Hin. apply Habs. now right.
Qed.

Lemma findField_typeOnly_present (key : string) :
  JSON.foldName key = "TYPE" ->
  JSON.findField [ ("Type", "Type", JSON.TString) ] key = Some ("Type", JSON.TString).
Proof.
  intros Hfold. unfold JSON.findField. cbn [List.find fst snd].
  destruct (String.eqb "Type" key); [reflexivity|].
  change (JSON.foldName "Type") with "TYPE".
  now rewrite Hfold, String.eqb_refl.
Qed.

Lemma storeMembers_app (value_ : JSON.gotype -> JSON.value -> JSON.goval ->
                                 option JSON.error -> JSON.decoded JSON.goval)
    (fields : list (string * string * JSON.gotype))
    (ms1 ms2 : list (string * JSON.value))
    (cur : list (string * JSON.goval)) (saved : option JSON.error) :
  JSON.storeMembers value_ fields (ms1 ++ ms2) cur saved
  = match JSON.storeMembers value_ fields ms1 cur saved with
    | JSON.Done cur' saved' => JSON.storeMembers value_ fields ms2 cur' saved'
    | JSON.Abort e => JSON.Abort e
    end.
Proof.
  revert cur saved. induction ms1 as [|kv ms1 IH]; intros cur saved; [reflexivity|].
  rewrite <- app_comm_cons. cbn [JSON.storeMembers].
  destruct (JSON.findField fields (fst kv)) as [[name ft]|]; [|apply IH].
  destruct (value_ ft (snd kv) _ saved); [apply IH|reflexivity].
Qed.

(** The first pass on an object with one member for the field Type,
    a text: the discriminator is that text. *)
Lemma typeOnly_member (ms1 ms2 : list (string * JSON.value)) (key ty : string) :
  JSON.foldName key = "TYPE" ->
  (forall kv, In kv (ms1 ++ ms2) -> JSON.foldName (fst kv) <> "TYPE") ->
  unmarshalRaw typeOnly (JSON.VRaw (Some (JSON.Object (ms1 ++ (key, JSON.Str ty) :: ms2))))
  = inl (JSON.VStruct [ ("Type", JSON.VString ty) ]).
Proof.
  intros Hkey Habs. unfold unmarshalRaw, JSON.Unmarshal.
  cbn [JSON.store typeOnly JSON.zero List.map fst snd].
  rewrite storeMembers_app, storeMembers_absent
    by (intros kv Hin; apply Habs, in_or_app; now left).
  cbn [JSON.storeMembers fst snd]. rewrite (findField_typeOnly_present key Hkey).
  cbn [JSON.store JSON.setField]. rewrite String.eqb_refl.
  now rewrite storeMembers_absent
    by (intros kv Hin; apply Habs, in_or_app; now right).
Qed.
Lemma absent_type (ms : list (string * JSON.value)) :
  (forall kv, In kv ms -> JSON.foldName (fst kv) <> "TYPE") ->
  exists t, unmarshalRaw typeOnly (JSON.VRaw (Some (JSON.Object ms))) = inl t /\
            stringField t "Type" = "".
Proof.
  intros Habs. exists (JSON.zero typeOnly). split; [|reflexivity].
  unfold unmarshalRaw, JSON.Unmarshal. simpl.
  now rewrite (storeMembers_absent ms _ None Habs).
Qed.

(** C2.  For an element whose discriminator is not empty the loop
    produces a hit of the variant that the discriminator selects.  When
    the discriminator is "series" the element is decoded as a
    [Series]: the response gets that value as a Series hit after the
    hits it has and the loop goes on with the next element, and the
    hit of the element alone is that Series hit; an error of that
    decoding ends the loop with the response as it was.  For every
    other discriminator the same holds with [Asset] and an Asset hit.
    In the response of [makeResponse] the hit stands at the place of
    the element when the elements before it decode, and a hit that a
    response has at the place of the element is of that variant.  The
    discriminator of an object with one member named type (in any
    case of the letters), a text, is that text. *)
Theorem discriminator_selects_variant :
  (forall h t : JSON.goval,
      unmarshalRaw typeOnly h = inl t ->
      stringField t "Type" <> "" ->
      (stringField t "Type" = "series" ->
         (forall (rest : list JSON.goval) (response : Response),
             decodeHits (h :: rest) response
             = match unmarshalRaw Series h with
               | inl series =>
                   decodeHits rest
                     {| TotalHits := TotalHits response;
                        Hits := Hits response ++ [ HitSeries series ];
                        Meta_ := Meta_ response |}
               | inr err => (response, Some (JSONError err))
               end) /\
         (forall (series : JSON.goval) (response : Response),
             unmarshalRaw Series h = inl series ->
             decodeHits [ h ] response
             = ({| TotalHits := TotalHits response;
                   Hits := Hits response ++ [ HitSeries series ];
                   Meta_ := Meta_ response |}, None)) /\
         (forall (series : JSON.goval) (req : HTTP.Request) (resp : HTTP.Response)
                 (v : JSON.goval) (before rest : list JSON.goval) (hits : list Hit),
             unmarshalRaw Series h = inl series ->
             JSON.Decode validTime envelope (HTTP.Body resp) = inl v ->
             sliceField v "Hits" = before ++ h :: rest ->
             Forall2 decodesTo before hits ->
             Hits (fst (makeResponse req resp)) !! length before
             = Some (HitSeries series))) /\
      (stringField t "Type" <> "series" ->
         (forall (rest : list JSON.goval) (response : Response),
             decodeHits (h :: rest) response
             = match unmarshalRaw Asset h with
               | inl asset =>
                   decodeHits rest
                     {| TotalHits := TotalHits response;
                        Hits := Hits response ++ [ HitAsset asset ];
                        Meta_ := Meta_ response |}
               | inr err => (response, Some (JSONError err))
               end) /\
         (forall (asset : JSON.goval) (response : Response),
             unmarshalRaw Asset h = inl asset ->
             decodeHits [ h ] response
             = ({| TotalHits := TotalHits response;
                   Hits := Hits response ++ [ HitAsset asset ];
                   Meta_ := Meta_ response |}, None)) /\
         (forall (asset : JSON.goval) (req : HTTP.Request) (resp : HTTP.Response)
                 (v : JSON.goval) (before rest : list JSON.goval) (hits : list Hit),
             unmarshalRaw Asset h = inl asset ->
             JSON.Decode validTime envelope (HTTP.Body resp) = inl v ->
             sliceField v "Hits" = before ++ h :: rest ->
             Forall2 decodesTo before hits ->
             Hits (fst (makeResponse req resp)) !! length before
             = Some (HitAsset asset))) /\
      (forall (req : HTTP.Request) (resp : HTTP.Response) (v : JSON.goval)
              (i : nat) (hit : Hit),
          JSON.Decode validTime envelope (HTTP.Body resp) = inl v ->
          sliceField v "Hits" !! i = Some h ->
          Hits (fst (makeResponse req resp)) !! i = Some hit ->
          (stringField t "Type" = "series" ->
             exists series, unmarshalRaw Series h = inl series /\ hit = HitSeries series) /\
          (stringField t "Type" <> "series" ->
             exists asset, unmarshalRaw Asset h = inl asset /\ hit = HitAsset asset))) /\
  (forall (ms1 ms2 : list (string * JSON.value)) (key ty : string),
      JSON.foldName key = "TYPE" ->
      (forall kv, In kv (ms1 ++ ms2) -> JSON.foldName (fst kv) <> "TYPE") ->
      exists t,
        unmarshalRaw typeOnly
          (JSON.VRaw (Some (JSON.Object (ms1 ++ (key, JSON.Str ty) :: ms2))))
        = inl t /\
        stringField t "Type" = ty).
Proof.
  assert (Hplace : forall (h : JSON.goval) (hit : Hit) (req : HTTP.Request)
                          (resp : HTTP.Response) (v : JSON.goval)
                          (before rest : list JSON.goval) (hits : list Hit),
             (forall response,
                 decodeHits (h :: rest) response
                 = decodeHits rest
                     {| TotalHits := TotalHits response;
                        Hits := Hits response ++ [ hit ];
                        Meta_ := Meta_ response |}) ->
             JSON.Decode validTime envelope (HTTP.Body resp) = inl v ->
             sliceField v "Hits" = before ++ h :: rest ->
             Forall2 decodesTo before hits ->
             Hits (fst (makeResponse req resp)) !! length before = Some hit).
  { intros h hit req resp v before rest hits Hstep Hv Hsplit Hall.
    unfold makeResponse.
    rewrite Hv, Hsplit, (decodeHits_prefix before hits) by assumption.
    rewrite Hstep. unfold addHits. cbn [TotalHits Hits Meta_ app].
    rewrite (Forall2_length _ _ _ Hall).
    match goal with
    | |- context [decodeHits rest ?r] =>
        destruct (decodeHits_result rest r)
          as [(more & _ & ->)|(b' & h' & r' & more & e & _ & _ & _ & ->)]
    end; unfold addHits; cbn [fst Hits];
      rewrite <- app_assoc; now apply list_lookup_middle. }
  split.
  - intros h t Ht Hne. apply String.eqb_neq in Hne. split; [|split].
    + intros Hs.
      assert (Hstep : forall rest response,
                 decodeHits (h :: rest) response
                 = match unmarshalRaw Series h with
                   | inl series =>
                       decodeHits rest
                         {| TotalHits := TotalHits response;
                            Hits := Hits response ++ [ HitSeries series ];
                            Meta_ := Meta_ response |}
                   | inr err => (response, Some (JSONError err))
                   end).
      { intros rest response. simpl. rewrite Ht, Hne, Hs. reflexivity. }
      split; [exact Hstep|]. split.
      * intros series response Hseries. now rewrite Hstep, Hseries.
      * intros series req resp v before rest hits Hseries Hv Hsplit Hall.
        apply (Hplace h (HitSeries series) req resp v before rest hits); auto.
        intros response. now rewrite Hstep, Hseries.
    + intros Hs.
      assert (Hstep : forall rest response,
                 decodeHits (h :: rest) response
                 = match unmarshalRaw Asset h with
                   | inl asset =>
                       decodeHits rest
                         {| TotalHits := TotalHits response;
                            Hits := Hits response ++ [ HitAsset asset ];
                            Meta_ := Meta_ response |}
                   | inr err => (response, Some (JSONError err))
                   end).
      { intros rest response. apply String.eqb_neq in Hs. simpl.
        now rewrite Ht, Hne, Hs. }
      split; [exact Hstep|]. split.
      * intros asset response Hasset. now rewrite Hstep, Hasset.
      * intros asset req resp v before rest hits Hasset Hv Hsplit Hall.
        apply (Hplace h (HitAsset asset) req resp v before rest hits); auto.
        intros response. now rewrite Hstep, Hasset.
    + intros req resp v i hit Hv Hh Hi.
      destruct (makeResponse_lookup req resp v i hit Hv Hi) as (h' & Hh' & Hd).
      assert (h' = h) by congruence. subst h'.
      destruct (decodesTo_variant h hit Hd) as (t' & Ht' & _ & Hvar).
      assert (t' = t) by congruence. subst t'.
      split; intros Hs.
      * now rewrite Hs in Hvar.
      * apply String.eqb_neq in Hs. now rewrite Hs in Hvar.
  - intros ms1 ms2 key ty Hkey Habs.
    exists (JSON.VStruct [ ("Type", JSON.VString ty) ]). split; [|reflexivity].
    now apply typeOnly_member.
Qed.

(** C3.  When the elements before an element of the array decode and
    the element has an empty discriminator, [makeResponse] returns
    [ErrTypeMissing] and a response with the total of the body and
    exactly the hits of the elements before, in their order.  An
    object without a member named type (in any case of the letters)
    is such an element, and so is an object whose one such member is
    the empty text. *)
Theorem makeResponse_type_missing :
  (forall (req : HTTP.Request) (resp : HTTP.Response) (v : JSON.goval)
          (before : list JSON.goval) (h t : JSON.goval) (rest : list JSON.goval)
          (hits : list Hit),
      JSON.Decode validTime envelope (HTTP.Body resp) = inl v ->
      sliceField v "Hits" = before ++ h :: rest ->
      Forall2 decodesTo before hits ->
      unmarshalRaw typeOnly h = inl t ->
      stringField t "Type" = "" ->
      makeResponse req resp
      = ({| TotalHits := intField v "TotalHits";
            Hits := hits;
            Meta_ := makeMeta req resp |}, Some ErrTypeMissing)) /\
  (forall ms : list (string * JSON.value),
      (forall kv, In kv ms -> JSON.foldName (fst kv) <> "TYPE") ->
      failsWith (JSON.VRaw (Some (JSON.Object ms))) ErrTypeMissing) /\
  (forall (ms1 ms2 : list (string * JSON.value)) (key : string),
      JSON.foldName key = "TYPE" ->
      (forall kv, In kv (ms1 ++ ms2) -> JSON.foldName (fst kv) <> "TYPE") ->
      failsWith (JSON.VRaw (Some (JSON.Object (ms1 ++ (key, JSON.Str "") :: ms2))))
                ErrTypeMissing).
Proof.
  split; [|split].
  - intros req resp v before h t rest hits Hv Hsplit Hall Ht He.
    unfold makeResponse. rewrite Hv, Hsplit, (decodeHits_prefix before hits) by assumption.
    now rewrite (decodeHits_failsWith h ErrTypeMissing)
      by now apply (failsWith_ErrTypeMissing h t).
  - intros ms Habs. destruct (absent_type ms Habs) as (t & Ht & He).
    now apply (failsWith_ErrTypeMissing _ t).
  - intros ms1 ms2 key Hkey Habs.
    apply (failsWith_ErrTypeMissing _ (JSON.VStruct [ ("Type", JSON.VString "") ]));
      [|reflexivity].
    now apply typeOnly_member.
Qed.

End MakeResponse.

(** ** The classifier *)

Section Classifier.

Context `{StdLib}.

(** C4.  A response with the status 200 whose content type is not
    JSON makes [Search] return [ErrContentTypeNotJSON] and a response
    that holds the meta information only, whatever the body is. *)
Theorem Search_content_type_not_JSON (c : Client) (query query' : URL.Values)
    (options : list (HTTP.Request -> HTTP.Request)) (req : HTTP.Request)
    (header : HTTP.Header) (body : string) :
  newSearchRequest c query options = (query', inl req) ->
  httpClient c req = inl (HTTP.mkResponse 200 header body) ->
  isJSONMediaType (HTTP.Get header "Content-Type") = false ->
  Search c query options
  = (query',
     ({| TotalHits := 0; Hits := [];
         Meta_ := {| StatusCode := 200; Header := header;
                     RequestURL := Some (HTTP.URL req) |} |},
      Some ErrContentTypeNotJSON)).
Proof.
  intros Hreq Hdo Hct. unfold Search. rewrite Hreq, Hdo.
  unfold isJSONResponse. simpl. now rewrite Hct.
Qed.

(** C6.  A response with another status than 200 whose content type
    is not JSON makes [Search] return an error whose text is the
    status in decimal, a space and the reason phrase of the status,
    and the meta information; the body has no part in it.  For 500
    the text is 500 Internal Server Error. *)
Theorem Search_opaque_error (c : Client) (query query' : URL.Values)
    (options : list (HTTP.Request -> HTTP.Request)) (req : HTTP.Request)
    (code : Z) (header : HTTP.Header) (body : string) :
  newSearchRequest c query options = (query', inl req) ->
  httpClient c req = inl (HTTP.mkResponse code header body) ->
  code <> 200%Z ->
  isJSONMediaType (HTTP.Get header "Content-Type") = false ->
  Search c query options
  = (query',
     ({| TotalHits := 0; Hits := [];
         Meta_ := {| StatusCode := code; Header := header;
                     RequestURL := Some (HTTP.URL req) |} |},
      Some (Errorf (GoStrings.Itoa code ++ " " ++ HTTP.StatusText code)))) /\
  (code = 500%Z ->
   (GoStrings.Itoa code ++ " " ++ HTTP.StatusText code)%string
   = "500 Internal Server Error").
Proof.
  intros Hreq Hdo Hcode Hct. split.
  - unfold Search. rewrite Hreq, Hdo. unfold isJSONResponse. simpl.
    apply Z.eqb_neq in Hcode. unfold HTTP.StatusOK. now rewrite Hcode, Hct.
  - now intros ->.
Qed.

(** C5.  A response with another status than 200 whose content type
    is JSON makes [Search] decode the body as an [APIError] and
    return it as the error, or, when the body does not decode, an
    error whose text has the status, its reason phrase and the text
    of the decoding error; the meta information has the status in
    both cases.  With the status 404 and the body that has the message
    not found, the error is an [APIError] with that message and the
    meta information has the status 404. *)
Theorem Search_structured_error (c : Client) (query query' : URL.Values)
    (options : list (HTTP.Request -> HTTP.Request)) (req : HTTP.Request)
    (code : Z) (header : HTTP.Header) (body : string) :
  newSearchRequest c query options = (query', inl req) ->
  httpClient c req = inl (HTTP.mkResponse code header body) ->
  code <> 200%Z ->
  isJSONMediaType (HTTP.Get header "Content-Type") = true ->
  Search c query options
  = (query',
     ({| TotalHits := 0; Hits := [];
         Meta_ := {| StatusCode := code; Header := header;
                     RequestURL := Some (HTTP.URL req) |} |},
      Some match JSON.Decode validTime APIError body with
           | inl ae => APIErrorValue ae
           | inr err =>
               Errorf (GoStrings.Itoa code ++ " " ++ HTTP.StatusText code
                       ++ "; JSON response body malformed ("
                       ++ jsonErrorText err ++ ")")
           end)) /\
  (code = 404%Z ->
   body = GoStrings.quoted "{'message':'not found'}" ->
   exists ae : JSON.goval,
     snd (snd (Search c query options)) = Some (APIErrorValue ae) /\
     stringField ae "Message" = "not found" /\
     StatusCode (Meta_ (fst (snd (Search c query options)))) = 404%Z).
Proof.
  intros Hreq Hdo Hcode Hct.
  assert (Hgeneral :
            Search c query options
            = (query',
               ({| TotalHits := 0; Hits := [];
                   Meta_ := {| StatusCode := code; Header := header;
                               RequestURL := Some (HTTP.URL req) |} |},
                Some match JSON.Decode validTime APIError body with
                     | inl ae => APIErrorValue ae
                     | inr err =>
                         Errorf (GoStrings.Itoa code ++ " " ++ HTTP.StatusText code
                                 ++ "; JSON response body malformed ("
                                 ++ jsonErrorText err ++ ")")
                     end))).
  { unfold Search. rewrite Hreq, Hdo. unfold isJSONResponse. simpl.
    apply Z.eqb_neq in Hcode. unfold HTTP.StatusOK. rewrite Hcode, Hct. simpl.
    now destruct (JSON.Decode validTime APIError body). }
  split; [exact Hgeneral|].
  intros -> ->.
  assert (Hexample : exists ae : JSON.goval,
             JSON.Decode validTime APIError (GoStrings.quoted "{'message':'not found'}")
             = inl ae /\ stringField ae "Message" = "not found")
    by (eexists; split; vm_compute; reflexivity).
  destruct Hexample as (ae & Hae & Hmessage).
  exists ae. rewrite Hgeneral, Hae. simpl. auto.
Qed.

(** C1, as the code has it.  When the elements before an element of
    the array decode and the element fails, [makeResponse] returns
    the error with the total of the body and the hits of the elements
    before, and [Search] returns the error with a response that
    holds the meta information only. *)
Theorem Search_decode_failure (c : Client) (query query' : URL.Values)
    (options : list (HTTP.Request -> HTTP.Request)) (req : HTTP.Request)
    (resp : HTTP.Response) (v : JSON.goval)
    (before : list JSON.goval) (h : JSON.goval) (rest : list JSON.goval)
    (hits : list Hit) (e : error) :
  newSearchRequest c query options = (query', inl req) ->
  httpClient c req = inl resp ->
  HTTP.StatusCode resp = 200%Z ->
  isJSONResponse resp = true ->
  JSON.Decode validTime envelope (HTTP.Body resp) = inl v ->
  sliceField v "Hits" = before ++ h :: rest ->
  Forall2 decodesTo before hits ->
  failsWith h e ->
  makeResponse req resp
  = ({| TotalHits := intField v "TotalHits"; Hits := hits;
        Meta_ := makeMeta req resp |}, Some e) /\
  Search c query options
  = (query', ({| TotalHits := 0; Hits := []; Meta_ := makeMeta req resp |}, Some e)).
Proof.
  intros Hreq Hdo Hcode Hct Hv Hsplit Hall Hf.
  assert (Hmk : makeResponse req resp
                = ({| TotalHits := intField v "TotalHits"; Hits := hits;
                      Meta_ := makeMeta req resp |}, Some e)).
  { unfold makeResponse.
    rewrite Hv, Hsplit, (decodeHits_prefix before hits) by assumption.
    now rewrite (decodeHits_failsWith h e) by assumption. }
  split; [assumption|].
  unfold Search. rewrite Hreq, Hdo, Hcode, Hct, Hmk. reflexivity.
Qed.

End Classifier.

(** ** The request builder *)

Section RequestBuilder.

Context `{StdLib}.

Lemma ensureCorrectFieldsParam_frame (m : gmap string (list string)) :
  exists m', ensureCorrectFieldsParam (Some m) = Some m' /\
             forall k, k <> "fields" -> m' !! k = m !! k.
Proof.
  unfold ensureCorrectFieldsParam.
  destruct (negb (URL.Get (Some m) "fields" =? "")%string); [|eauto].
  destruct (negb (hasTypeField (URL.Get (Some m) "fields"))); [|eauto].
  eexists. split; [reflexivity|]. intros k Hk. unfold URL.Set_.
  now rewrite lookup_insert_ne by congruence.
Qed.

(** C10.  With a query that is not nil, the query after
    [newSearchRequest] has the parameters of the query before it,
    but for fields and client.  When the client has an application
    name and the request building gets past the checks of the base
    URL, the parameter client is the application name alone, whatever
    it was, and the URL of the request is made with the encoding of
    that query. *)
Theorem newSearchRequest_client_param (c : Client) (m : gmap string (list string))
    (options : list (HTTP.Request -> HTTP.Request)) :
  exists m' : gmap string (list string),
    fst (newSearchRequest c (Some m) options) = Some m' /\
    (forall k, k <> "fields" -> k <> "client" -> m' !! k = m !! k) /\
    (appName c <> "" ->
     forall base rel,
       baseURL c = Some base ->
       urlParse (pathJoin (URL.Path base) "/search") = inl rel ->
       m' !! "client" = Some [ appName c ] /\
       snd (newSearchRequest c (Some m) options)
       = match NewRequest "GET"
                 (URLString (URL.withRawQuery (ResolveReference base rel)
                                              (Encode (Some m')))) with
         | inr err => inr (LibraryError err)
         | inl req => inl (fold_left (fun r o => o r) options req)
         end) /\
    (appName c <> "" ->
     forall req, snd (newSearchRequest c (Some m) options) = inl req ->
                 m' !! "client" = Some [ appName c ]).
Proof.
  destruct (ensureCorrectFieldsParam_frame m) as (m1 & Hens & Hframe).
  unfold newSearchRequest.
  destruct (baseURL c) as [base|].
  2:{ exists m. simpl. repeat split; intros; try reflexivity; discriminate. }
  destruct (urlParse (pathJoin (URL.Path base) "/search")) as [rel|err] eqn:Eparse.
  2:{ exists m. simpl. repeat split; intros; try reflexivity; try discriminate;
      congruence. }
  rewrite Hens.
  destruct (String.eqb (appName c) "") eqn:Eapp; simpl.
  - apply String.eqb_eq in Eapp. exists m1.
    destruct (NewRequest "GET" _); simpl;
      (split; [reflexivity|]; split; [intros k Hk _; now apply Hframe|]);
      split; intros Hne; contradiction.
  - exists (URL.Set_ m1 "client" (appName c)).
    assert (Hclient : URL.Set_ m1 "client" (appName c) !! "client" = Some [ appName c ])
      by (unfold URL.Set_; now rewrite lookup_insert_eq).
    assert (Hother : forall k, k <> "fields" -> k <> "client" ->
                               URL.Set_ m1 "client" (appName c) !! k = m !! k).
    { intros k Hk1 Hk2. unfold URL.Set_. rewrite lookup_insert_ne by congruence.
      now apply Hframe. }
    destruct (NewRequest "GET" _) eqn:Enew; simpl;
      (split; [reflexivity|]; split; [assumption|]); split; auto;
      intros _ base' rel' Hb Hr; inversion Hb; subst base';
      rewrite Eparse in Hr; inversion Hr; subst rel';
      (split; [assumption|]); now rewrite Enew.
Qed.

End RequestBuilder.

(** ** The theorems at work on examples *)

Lemma ensureCorrectFieldsParam_spec_witness :
  URL.Get (ensureCorrectFieldsParam (Some {[ "fields" := [ "id,title" ] ]})) "fields"
  = "id,title,type".
Proof.
  destruct (ensureCorrectFieldsParam_spec (Some {[ "fields" := [ "id,title" ] ]}))
    as [Happend _].
  apply Happend.
  - vm_compute. discriminate.
  - vm_compute. intros [Hid|[Htitle|[]]]; discriminate.
Defined.

Lemma isJSONResponse_spec_witness :
  isJSONMediaType " application/json ; q=1" = true.
Proof.
  destruct isJSONResponse_spec as [Hiff _].
  apply Hiff. exists " ", " ". repeat split.
  - intros c [<-|[]]. reflexivity.
  - intros c [<-|[]]. reflexivity.
  - right. exists " q=1". reflexivity.
Defined.

Lemma newSearchRequest_client_param_witness :
  exists m' : gmap string (list string),
    fst (@newSearchRequest exampleLib (exampleClient 200 "text/plain" "")
           (Some {[ "client" := [ "other" ] ]}) [])
    = Some m' /\
    m' !! "client" = Some [ "app" ].
Proof.
  destruct (@newSearchRequest_client_param exampleLib (exampleClient 200 "text/plain" "")
              {[ "client" := [ "other" ] ]} [])
    as (m' & Hfst & _ & Hset & _).
  exists m'. split; [exact Hfst|].
  eapply Hset.
  - simpl. discriminate.
  - reflexivity.
  - reflexivity.
Defined.

Lemma Search_content_type_not_JSON_witness :
  snd (snd (@Search exampleLib (exampleClient 200 "text/plain" "{}") None []))
  = Some ErrContentTypeNotJSON.
Proof.
  erewrite (@Search_content_type_not_JSON exampleLib
              (exampleClient 200 "text/plain" "{}") None None []).
  - reflexivity.
  - vm_compute. reflexivity.
  - vm_compute. reflexivity.
  - vm_compute. reflexivity.
Defined.

Lemma Search_opaque_error_witness :
  snd (snd (@Search exampleLib (exampleClient 500 "text/html" "<html>") None []))
  = Some (Errorf "500 Internal Server Error").
Proof.
  destruct (@Search_opaque_error exampleLib (exampleClient 500 "text/html" "<html>")
              None None [] (HTTP.mkRequest "GET" (URL.mkURL "" "" "https://search.b17g.services/search?client=" "") ∅)
              500 {[ "Content-Type" := [ "text/html" ] ]} "<html>")
    as [Hsearch Htext].
  - vm_compute. reflexivity.
  - vm_compute. reflexivity.
  - lia.
  - vm_compute. reflexivity.
  - rewrite Hsearch. cbn [snd]. now rewrite (Htext eq_refl).
Defined.

Lemma Search_structured_error_witness :
  exists ae : JSON.goval,
    snd (snd (@Search exampleLib
                (exampleClient 404 "application/json"
                   (GoStrings.quoted "{'message':'not found'}"))
                None []))
    = Some (APIErrorValue ae) /\
    stringField ae "Message" = "not found".
Proof.
  destruct (@Search_structured_error exampleLib
              (exampleClient 404 "application/json"
                 (GoStrings.quoted "{'message':'not found'}"))
              None None []
              (HTTP.mkRequest "GET"
                 (URL.mkURL "" "" "https://search.b17g.services/search?client=" "") ∅)
              404 {[ "Content-Type" := [ "application/json" ] ]}
              (GoStrings.quoted "{'message':'not found'}"))
    as [_ Hexample].
  - vm_compute. reflexivity.
  - vm_compute. reflexivity.
  - lia.
  - vm_compute. reflexivity.
  - destruct (Hexample eq_refl eq_refl) as (ae & Herr & Hmessage & _).
    exists ae. split; assumption.
Defined.

Lemma makeResponse_order_preserving_witness :
  length (Hits (fst (@makeResponse exampleLib
                       (HTTP.mkRequest "GET" (URL.mkURL "" "" "/search" "") ∅)
                       (HTTP.mkResponse 200 ∅
                          (GoStrings.quoted "{'total_hits':1,'assets':[{'type':'clip'}]}")))))
  = 1.
Proof.
  destruct (@makeResponse_order_preserving exampleLib) as [Hgeneral _].
  edestruct (Hgeneral (HTTP.mkRequest "GET" (URL.mkURL "" "" "/search" "") ∅)
               (HTTP.mkResponse 200 ∅ (GoStrings.quoted "{'total_hits':1,'assets':[{'type':'clip'}]}")))
    as [_ Hall].
  - vm_compute. reflexivity.
  - apply surjective_pairing.
  - destruct Hall as [_ Hlength]; [vm_compute; reflexivity|]. exact Hlength.
Defined.

Lemma discriminator_selects_variant_witness :
  exists asset : JSON.goval,
    Hits (fst (@decodeHits exampleLib
                 [ JSON.VRaw (Some (JSON.Object [ ("type", JSON.Str "movie");
                                                  ("video_id", JSON.Str "a1") ])) ]
                 zeroResponse))
    = [ HitAsset asset ] /\
    stringField asset "VideoID" = "a1".
Proof.
  destruct (@discriminator_selects_variant exampleLib) as [Hselect _].
  destruct (Hselect
              (JSON.VRaw (Some (JSON.Object [ ("type", JSON.Str "movie");
                                              ("video_id", JSON.Str "a1") ])))
              (JSON.VStruct [ ("Type", JSON.VString "movie") ]))
    as (_ & Hasset & _).
  - vm_compute. reflexivity.
  - vm_compute. discriminate.
  - destruct Hasset as (_ & Halone & _); [vm_compute; discriminate|].
    eexists. erewrite Halone; [|vm_compute; reflexivity].
    split; [reflexivity|vm_compute; reflexivity].
Defined.

Lemma makeResponse_type_missing_witness :
  snd (@makeResponse exampleLib
         (HTTP.mkRequest "GET" (URL.mkURL "" "" "/search" "") ∅)
         (HTTP.mkResponse 200 ∅ bodyWithoutType))
  = Some ErrTypeMissing.
Proof.
  destruct (@makeResponse_type_missing exampleLib) as [Hgeneral _].
  erewrite (Hgeneral _ _ _
              [ JSON.VRaw (Some (JSON.Object [ ("type", JSON.Str "series");
                                               ("id", JSON.Str "s1") ])) ]
              (JSON.VRaw (Some (JSON.Object [ ("video_id", JSON.Str "a1") ])))
              (JSON.VStruct [ ("Type", JSON.VString "") ]) []).
  - reflexivity.
  - vm_compute. reflexivity.
  - vm_compute. reflexivity.
  - constructor; [vm_compute; reflexivity|constructor].
  - vm_compute. reflexivity.
  - vm_compute. reflexivity.
Defined.

Lemma Search_decode_failure_witness :
  snd (@Search exampleLib (exampleClient 200 "application/json" bodyWithoutType) None [])
  = ({| TotalHits := 0; Hits := [];
        Meta_ := {| StatusCode := 200;
                    Header := {[ "Content-Type" := [ "application/json" ] ]};
                    RequestURL :=
                      Some (URL.mkURL "" "" "https://search.b17g.services/search?client=" "") |} |},
     Some ErrTypeMissing).
Proof.
  edestruct (@Search_decode_failure exampleLib
               (exampleClient 200 "application/json" bodyWithoutType) None None []
               (HTTP.mkRequest "GET"
                  (URL.mkURL "" "" "https://search.b17g.services/search?client=" "") ∅)
               (HTTP.mkResponse 200 {[ "Content-Type" := [ "application/json" ] ]}
                  bodyWithoutType))
    with (before := [ JSON.VRaw (Some (JSON.Object [ ("type", JSON.Str "series");
                                                     ("id", JSON.Str "s1") ])) ])
         (h := JSON.VRaw (Some (JSON.Object [ ("video_id", JSON.Str "a1") ])))
         (rest := @nil JSON.goval)
         (e := ErrTypeMissing)
    as [_ Hsearch].
  - vm_compute. reflexivity.
  - vm_compute. reflexivity.
  - reflexivity.
  - vm_compute. reflexivity.
  - vm_compute. reflexivity.
  - vm_compute. reflexivity.
  - constructor; [vm_compute; reflexivity|constructor].
  - vm_compute. reflexivity.
  - rewrite Hsearch. reflexivity.
Defined.

(** C1, as the spec has it, fails on the body whose second hit has no
    type: [makeResponse] hands the total 2 and the Series hit of the
    first element to [Search] with [ErrTypeMissing], and [Search]
    returns the error with a response that has no hit and the total
    0. *)
Lemma Search_drops_partial_result :
  exists (req : HTTP.Request) (resp : HTTP.Response) (series : JSON.goval),
    let c := exampleClient 200 "application/json" bodyWithoutType in
    @newSearchRequest exampleLib c None [] = (None, inl req) /\
    httpClient c req = inl resp /\
    HTTP.StatusCode resp = 200%Z /\
    isJSONResponse resp = true /\
    @makeResponse exampleLib req resp
    = ({| TotalHits := 2; Hits := [ HitSeries series ];
          Meta_ := @makeMeta req resp |}, Some ErrTypeMissing) /\
    stringField series "ID" = "s1" /\
    snd (snd (@Search exampleLib c None [])) = Some ErrTypeMissing /\
    Hits (fst (snd (@Search exampleLib c None []))) = [] /\
    TotalHits (fst (snd (@Search exampleLib c None []))) = 0%Z /\
    Hits (fst (snd (@Search exampleLib c None []))) <> [ HitSeries series ] /\
    TotalHits (fst (snd (@Search exampleLib c None []))) <> 2%Z.
Proof.
  eexists. eexists. eexists. cbv zeta.
  split; [vm_compute; reflexivity|].
  split; [vm_compute; reflexivity|].
  split; [reflexivity|].
  split; [vm_compute; reflexivity|].
  split; [vm_compute; reflexivity|].
  split; [vm_compute; reflexivity|].
  split; [vm_compute; reflexivity|].
  split; [vm_compute; reflexivity|].
  split; [vm_compute; reflexivity|].
  split; vm_compute; discriminate.
Qed.

(** * Further properties *)

(** ** The query normaliser, again *)

Lemma append_not_empty (s t : string) : t <> "" -> (s ++ t)%string <> "".
Proof.
  intros Ht. destruct s as [|c s]; [exact Ht|]. rewrite append_String. discriminate.
Qed.

(** The fields parameter after the normaliser. *)
Lemma ensureCorrectFieldsParam_Get (query : URL.Values) :
  URL.Get (ensureCorrectFieldsParam query) "fields"
  = if negb (String.eqb (URL.Get query "fields") "")
       && negb (hasTypeField (URL.Get query "fields"))
    then (URL.Get query "fields" ++ ",type")%string
    else URL.Get query "fields".
Proof.
  unfold ensureCorrectFieldsParam.
  destruct (negb (URL.Get query "fields" =? "")%string) eqn:Ene; [|reflexivity].
  destruct query as [m|]; [|discriminate].
  destruct (negb (hasTypeField (URL.Get (Some m) "fields"))); [|reflexivity].
  cbn [andb]. unfold URL.Set_. cbn [URL.Get]. now rewrite lookup_insert_eq.
Qed.

Lemma ensureCorrectFieldsParam_unchanged (query : URL.Values) :
  URL.Get query "fields" = "" \/ hasTypeField (URL.Get query "fields") = true ->
  ensureCorrectFieldsParam query = query.
Proof.
  intros [Hempty|Hhas]; unfold ensureCorrectFieldsParam.
  - now rewrite Hempty.
  - rewrite Hhas. destruct (negb (URL.Get query "fields" =? "")%string); [|reflexivity].
    now destruct query.
Qed.

Lemma hasTypeField_appended (fields : string) :
  hasTypeField (fields ++ ",type") = true.
Proof.
  apply hasTypeField_In. rewrite (Split_app fields "type" ","%char).
  apply in_or_app. right. now left.
Qed.

(** X1.  After the normaliser the fields parameter is empty exactly
    when it was empty before, and when it is not empty "type" is one
    of its comma-separated entries. *)
Theorem ensureCorrectFieldsParam_guarantee (query : URL.Values) :
  (URL.Get (ensureCorrectFieldsParam query) "fields" = ""
   <-> URL.Get query "fields" = "") /\
  (URL.Get (ensureCorrectFieldsParam query) "fields" <> "" ->
   In "type" (GoStrings.Split (URL.Get (ensureCorrectFieldsParam query) "fields") ","%char)).
Proof.
  rewrite ensureCorrectFieldsParam_Get.
  destruct (String.eqb (URL.Get query "fields") "") eqn:Eempty; cbn [negb andb].
  - apply String.eqb_eq in Eempty. rewrite Eempty. split; [tauto|congruence].
  - apply String.eqb_neq in Eempty.
    destruct (hasTypeField (URL.Get query "fields")) eqn:Ehas; cbn [negb].
    + split; [tauto|]. intros _. now apply hasTypeField_In.
    + split.
      * split; [|contradiction]. intros Happ. now apply append_not_empty in Happ.
      * intros _. apply hasTypeField_In, hasTypeField_appended.
Qed.

(** X2.  The normaliser is idempotent: a query that went through it
    goes through it again unchanged. *)
Theorem ensureCorrectFieldsParam_idempotent (query : URL.Values) :
  ensureCorrectFieldsParam (ensureCorrectFieldsParam query)
  = ensureCorrectFieldsParam query.
Proof.
  apply ensureCorrectFieldsParam_unchanged. rewrite ensureCorrectFieldsParam_Get.
  destruct (String.eqb (URL.Get query "fields") "") eqn:Eempty; cbn [negb andb].
  - left. now apply String.eqb_eq.
  - right. destruct (hasTypeField (URL.Get query "fields")) eqn:Ehas; cbn [negb].
    + exact Ehas.
    + apply hasTypeField_appended.
Qed.

(** ** The request builder and the classifier, again *)

Section SearchMore.

Context `{StdLib}.

Lemma newSearchRequest_frame (c : Client) (m : gmap string (list string))
    (options : list (HTTP.Request -> HTTP.Request)) :
  exists m' : gmap string (list string),
    fst (newSearchRequest c (Some m) options) = Some m' /\
    (forall k, k <> "fields" -> k <> "client" -> m' !! k = m !! k) /\
    (appName c = "" -> forall k, k <> "fields" -> m' !! k = m !! k).
Proof.
  destruct (ensureCorrectFieldsParam_frame m) as (m1 & Hens & Hframe).
  unfold newSearchRequest.
  destruct (baseURL c) as [base|]; [|exists m; simpl; auto].
  destruct (urlParse (pathJoin (URL.Path base) "/search")) as [rel|err];
    [|exists m; simpl; auto].
  rewrite Hens.
  destruct (String.eqb (appName c) "") eqn:Eapp; cbn [negb].
  - exists m1. destruct (NewRequest "GET" _); simpl; auto.
  - apply String.eqb_neq in Eapp. exists (URL.Set_ m1 "client" (appName c)).
    destruct (NewRequest "GET" _); simpl;
      (split; [reflexivity|]; split; [|contradiction]);
      intros k Hk1 Hk2; unfold URL.Set_; rewrite lookup_insert_ne by congruence;
      now apply Hframe.
Qed.

(** X3.  What [newSearchRequest] leaves alone: a nil query stays nil
    (no client parameter is put into it); with an empty application
    name only the fields parameter of the query can change, so a
    client parameter of the caller stays; without a base URL the
    result is [ErrInvalidBaseURL] and the query is untouched; and the
    query afterwards and the failure, if any, are the same for all
    options. *)
Theorem newSearchRequest_leaves_alone :
  (forall (c : Client) (options : list (HTTP.Request -> HTTP.Request)),
      fst (newSearchRequest c None options) = None) /\
  (forall (c : Client) (m : gmap string (list string))
          (options : list (HTTP.Request -> HTTP.Request)),
      appName c = "" ->
      exists m', fst (newSearchRequest c (Some m) options) = Some m' /\
                 forall k, k <> "fields" -> m' !! k = m !! k) /\
  (forall (c : Client) (query : URL.Values)
          (options : list (HTTP.Request -> HTTP.Request)),
      baseURL c = None ->
      newSearchRequest c query options = (query, inr ErrInvalidBaseURL)) /\
  (forall (c : Client) (query : URL.Values)
          (options options' : list (HTTP.Request -> HTTP.Request)),
      fst (newSearchRequest c query options) = fst (newSearchRequest c query options') /\
      forall err, snd (newSearchRequest c query options) = inr err ->
                  snd (newSearchRequest c query options') = inr err).
Proof.
  split; [|split; [|split]].
  - intros c options. unfold newSearchRequest.
    destruct (baseURL c); [|reflexivity].
    destruct (urlParse _); [|reflexivity].
    now destruct (NewRequest "GET" _).
  - intros c m options Happ.
    destruct (newSearchRequest_frame c m options) as (m' & Hfst & _ & Hempty).
    exists m'. auto.
  - intros c query options Hbase. unfold newSearchRequest. now rewrite Hbase.
  - intros c query options options'. unfold newSearchRequest.
    destruct (baseURL c); [|auto].
    destruct (urlParse _); [|auto].
    destruct (NewRequest "GET" _); simpl; [|auto].
    split; [reflexivity|]. discriminate.
Qed.

(** X4.  The options are applied to the request in their order, the
    last one last: with [SetRequestID] as the last option the request
    has the header X-Request-Id with that one value, and the URL, the
    method and the other headers that the options before it left. *)
Theorem newSearchRequest_SetRequestID (c : Client) (query query' : URL.Values)
    (options : list (HTTP.Request -> HTTP.Request)) (requestID : string)
    (req : HTTP.Request) :
  newSearchRequest c query (options ++ [ SetRequestID requestID ]) = (query', inl req) ->
  exists req0 : HTTP.Request,
    newSearchRequest c query options = (query', inl req0) /\
    HTTP.ReqHeader req !! "X-Request-Id" = Some [ requestID ] /\
    HTTP.URL req = HTTP.URL req0 /\
    HTTP.Method req = HTTP.Method req0 /\
    forall k, k <> "X-Request-Id" -> HTTP.ReqHeader req !! k = HTTP.ReqHeader req0 !! k.
Proof.
  unfold newSearchRequest.
  destruct (baseURL c); [|discriminate].
  destruct (urlParse _); [|discriminate].
  destruct (NewRequest "GET" _) as [built|]; [|discriminate].
  rewrite fold_left_app. cbn [fold_left]. intros Hrun. inversion Hrun; subst. clear Hrun.
  eexists. split; [reflexivity|]. unfold SetRequestID, HTTP.Set_. cbn.
  repeat split.
  - now rewrite lookup_insert_eq.
  - intros k Hk. now rewrite lookup_insert_ne by congruence.
Qed.

(** X5.  [Search] changes the query of its caller as [newSearchRequest]
    does, whatever the outcome: a nil query stays nil, and in a query
    that is not nil no parameter other than fields and client is
    changed. *)
Theorem Search_query_effect (c : Client) (query : URL.Values)
    (options : list (HTTP.Request -> HTTP.Request)) :
  fst (Search c query options) = fst (newSearchRequest c query options) /\
  (query = None -> fst (Search c query options) = None) /\
  (forall m, query = Some m ->
     exists m', fst (Search c query options) = Some m' /\
                forall k, k <> "fields" -> k <> "client" -> m' !! k = m !! k).
Proof.
  assert (Hfst : fst (Search c query options) = fst (newSearchRequest c query options)).
  { unfold Search. destruct (newSearchRequest c query options) as [q' [req|err]];
      [|reflexivity].
    destruct (httpClient c req) as [resp|err]; [|reflexivity].
    destruct (negb _).
    - destruct (negb _); [reflexivity|]. now destruct (JSON.Decode _ _ _).
    - destruct (negb _); [reflexivity|].
      now destruct (makeResponse req resp) as [response [e|]]. }
  split; [exact Hfst|]. split.
  - intros ->. rewrite Hfst. unfold newSearchRequest.
    destruct (baseURL c); [|reflexivity].
    destruct (urlParse _); [|reflexivity].
    now destruct (NewRequest "GET" _).
  - intros m ->. rewrite Hfst.
    destruct (newSearchRequest_frame c m options) as (m' & Hm' & Hframe & _).
    exists m'. auto.
Qed.

(** The meta information of [makeResponse] is that of the response it
    was given. *)
Lemma makeResponse_meta (req : HTTP.Request) (resp : HTTP.Response) :
  Meta_ (fst (makeResponse req resp)) = makeMeta req resp.
Proof.
  unfold makeResponse.
  destruct (JSON.Decode validTime envelope (HTTP.Body resp)) as [v|err]; [|reflexivity].
  destruct (decodeHits_result (sliceField v "Hits")
              {| TotalHits := intField v "TotalHits"; Hits := [];
                 Meta_ := makeMeta req resp |})
    as [(hits & _ & ->)|(before & h & rest & hits & e & _ & _ & _ & ->)]; reflexivity.
Qed.

(** X6.  [Search] never returns hits or a total with an error: the
    response next to an error has no hit and the total 0. *)
Theorem Search_error_without_hits (c : Client) (query : URL.Values)
    (options : list (HTTP.Request -> HTTP.Request)) (e : error) :
  snd (snd (Search c query options)) = Some e ->
  Hits (fst (snd (Search c query options))) = [] /\
  TotalHits (fst (snd (Search c query options))) = 0%Z.
Proof.
  unfold Search. destruct (newSearchRequest c query options) as [q' [req|err]];
    [|intros _; split; reflexivity].
  destruct (httpClient c req) as [resp|err]; [|intros _; split; reflexivity].
  destruct (negb _).
  - destruct (negb _); [intros _; split; reflexivity|].
    destruct (JSON.Decode _ _ _); intros _; split; reflexivity.
  - destruct (negb _); [intros _; split; reflexivity|].
    destruct (makeResponse req resp) as [response [e'|]]; [intros _; split; reflexivity|].
    discriminate.
Qed.

(** X7.  The response of [Search] has the meta information of the
    HTTP response (status, header and the URL of the request) whenever
    the transport gave one, with or without an error; when no request
    was built or the transport failed it is the zero response with
    that error. *)
Theorem Search_meta_attached (c : Client) (query query' : URL.Values)
    (options : list (HTTP.Request -> HTTP.Request)) :
  (forall req resp,
      newSearchRequest c query options = (query', inl req) ->
      httpClient c req = inl resp ->
      Meta_ (fst (snd (Search c query options)))
      = {| StatusCode := HTTP.StatusCode resp;
           Header := HTTP.RespHeader resp;
           RequestURL := Some (HTTP.URL req) |}) /\
  (forall err,
      newSearchRequest c query options = (query', inr err) ->
      Search c query options = (query', (zeroResponse, Some err))) /\
  (forall req text,
      newSearchRequest c query options = (query', inl req) ->
      httpClient c req = inr text ->
      Search c query options = (query', (zeroResponse, Some (LibraryError text)))).
Proof.
  split; [|split].
  - intros req resp Hreq Hdo. unfold Search. rewrite Hreq, Hdo.
    destruct (negb _).
    + destruct (negb _); [reflexivity|]. now destruct (JSON.Decode _ _ _).
    + destruct (negb _); [reflexivity|].
      pose proof (makeResponse_meta req resp) as Hmeta.
      destruct (makeResponse req resp) as [response [e|]]; [reflexivity|exact Hmeta].
  - intros err Hreq. unfold Search. now rewrite Hreq.
  - intros req text Hreq Hdo. unfold Search. now rewrite Hreq, Hdo.
Qed.

(** X8.  [Search] returns no error exactly when the request was built,
    the transport answered with the status 200 and a JSON content type
    and [makeResponse] decoded the body without an error; the response
    is then the one of [makeResponse]. *)
Theorem Search_success_iff (c : Client) (query : URL.Values)
    (options : list (HTTP.Request -> HTTP.Request)) :
  (snd (snd (Search c query options)) = None <->
   exists query' req resp,
     newSearchRequest c query options = (query', inl req) /\
     httpClient c req = inl resp /\
     HTTP.StatusCode resp = 200%Z /\
     isJSONResponse resp = true /\
     snd (makeResponse req resp) = None) /\
  (forall query' req resp,
      newSearchRequest c query options = (query', inl req) ->
      httpClient c req = inl resp ->
      HTTP.StatusCode resp = 200%Z ->
      isJSONResponse resp = true ->
      snd (makeResponse req resp) = None ->
      Search c query options = (query', (fst (makeResponse req resp), None))).
Proof.
  assert (Hrun : forall query' req resp,
             newSearchRequest c query options = (query', inl req) ->
             httpClient c req = inl resp ->
             HTTP.StatusCode resp = 200%Z ->
             isJSONResponse resp = true ->
             snd (makeResponse req resp) = None ->
             Search c query options = (query', (fst (makeResponse req resp), None))).
  { intros q' req resp Hreq Hdo Hcode Hjson Hmk. unfold Search.
    rewrite Hreq, Hdo, Hcode, Hjson. cbn.
    destruct (makeResponse req resp) as [response [e|]]; [discriminate|reflexivity]. }
  split; [|exact Hrun]. split.
  - unfold Search.
    destruct (newSearchRequest c query options) as [q' [req|err]] eqn:Ereq;
      [|discriminate].
    destruct (httpClient c req) as [resp|err] eqn:Edo; [|discriminate].
    destruct (HTTP.StatusCode resp =? HTTP.StatusOK)%Z eqn:Ecode; cbn [negb].
    + destruct (isJSONResponse resp) eqn:Ejson; cbn [negb]; [|discriminate].
      destruct (makeResponse req resp) as [response [e|]] eqn:Emk; [discriminate|].
      intros _. exists q', req, resp. apply Z.eqb_eq in Ecode.
      rewrite Emk. repeat split; auto.
    + destruct (negb _); [discriminate|]. destruct (JSON.Decode _ _ _); discriminate.
  - intros (q' & req & resp & Hreq & Hdo & Hcode & Hjson & Hmk).
    now rewrite (Hrun q' req resp).
Qed.

End SearchMore.

(** ** The hit decoder, again *)

Section DecoderMore.

Context `{StdLib}.

(** X10.  The loop only adds to the response it is given: the total and
    the meta information stay, the hits that were there stay in front,
    and the hits added and the error are those of a run from the empty
    response. *)
Theorem decodeHits_accumulates (hs : list JSON.goval) (response : Response) :
  TotalHits (fst (decodeHits hs response)) = TotalHits response /\
  Meta_ (fst (decodeHits hs response)) = Meta_ response /\
  Hits (fst (decodeHits hs response))
  = Hits response ++ Hits (fst (decodeHits hs zeroResponse)) /\
  snd (decodeHits hs response) = snd (decodeHits hs zeroResponse).
Proof.
  assert (Hrun : forall hs response,
             decodeHits hs response
             = (addHits response (Hits (fst (decodeHits hs zeroResponse))),
                snd (decodeHits hs zeroResponse))).
  { clear hs response. induction hs as [|h hs IH]; intros response.
    - simpl. now rewrite addHits_nil.
    - destruct (decodeHits_cons h hs response) as [(hit & Hd & ->)|(e & Hf & ->)].
      + rewrite (decodeHits_decodesTo h hit hs zeroResponse Hd).
        rewrite (IH (appendHit response hit)), (IH (appendHit zeroResponse hit)).
        cbn [fst snd]. now rewrite addHits_appendHit.
      + rewrite (decodeHits_failsWith h e hs zeroResponse Hf). cbn [fst snd].
        now rewrite addHits_nil. }
  rewrite (Hrun hs response). cbn. auto.
Qed.

(** X11.  The loop over two lists one after the other is the loop over
    the first and, when that ends without an error, the loop over the
    second from its response; an error in the first list is the result
    and the second list is not looked at. *)
Theorem decodeHits_app (hs1 hs2 : list JSON.goval) (response : Response) :
  decodeHits (hs1 ++ hs2) response
  = match decodeHits hs1 response with
    | (response1, None) => decodeHits hs2 response1
    | (response1, Some e) => (response1, Some e)
    end.
Proof.
  revert response. induction hs1 as [|h hs1 IH]; intros response; [reflexivity|].
  rewrite <- app_comm_cons.
  destruct (decodeHits_cons h (hs1 ++ hs2) response) as [(hit & Hd & ->)|(e & Hf & ->)].
  - rewrite (decodeHits_decodesTo h hit hs1 response Hd). apply IH.
  - now rewrite (decodeHits_failsWith h e hs1 response Hf).
Qed.

(** X9.  What [makeResponse] returns: the meta information always; when
    the envelope of the body does not decode, that error and nothing
    else; when it decodes, the total of the body and never more hits
    than the array has elements, as many exactly when there is no
    error. *)
Theorem makeResponse_outcome (req : HTTP.Request) (resp : HTTP.Response) :
  Meta_ (fst (makeResponse req resp)) = makeMeta req resp /\
  (forall err,
      JSON.Decode validTime envelope (HTTP.Body resp) = inr err ->
      makeResponse req resp
      = ({| TotalHits := 0; Hits := []; Meta_ := makeMeta req resp |},
         Some (JSONError err))) /\
  (forall v,
      JSON.Decode validTime envelope (HTTP.Body resp) = inl v ->
      TotalHits (fst (makeResponse req resp)) = intField v "TotalHits" /\
      length (Hits (fst (makeResponse req resp))) <= length (sliceField v "Hits") /\
      (snd (makeResponse req resp) = None <->
       length (Hits (fst (makeResponse req resp))) = length (sliceField v "Hits"))).
Proof.
  split; [apply makeResponse_meta|]. split.
  - intros err Herr. unfold makeResponse. now rewrite Herr.
  - intros v Hv.
    destruct (makeResponse_result req resp v Hv)
      as [(hits & Hall & ->)|(before & h & rest & hits & e & Hsplit & Hall & Hf & ->)];
      cbn [fst snd TotalHits Hits].
    + apply Forall2_length in Hall. rewrite Hall. repeat split; auto.
    + apply Forall2_length in Hall. rewrite Hsplit, length_app, <- Hall. cbn [length].
      repeat split; [lia|discriminate|lia].
Qed.

(** X14.  An element of the array that is no object: null counts as an
    element without type, and a number, a text, a truth value or an
    array is refused by the first pass with the type error of the
    decoder; the response stays as it was. *)
Theorem decodeHits_not_an_object (rest : list JSON.goval) (response : Response) :
  decodeHits (JSON.VRaw (Some JSON.Null) :: rest) response
  = (response, Some ErrTypeMissing) /\
  (forall lit,
      decodeHits (JSON.VRaw (Some (JSON.Number lit)) :: rest) response
      = (response, Some (JSONError (JSON.UnmarshalTypeError "number" typeOnly)))) /\
  (forall s,
      decodeHits (JSON.VRaw (Some (JSON.Str s)) :: rest) response
      = (response, Some (JSONError (JSON.UnmarshalTypeError "string" typeOnly)))) /\
  (forall b,
      decodeHits (JSON.VRaw (Some (JSON.Bool b)) :: rest) response
      = (response, Some (JSONError (JSON.UnmarshalTypeError "bool" typeOnly)))) /\
  (forall els,
      decodeHits (JSON.VRaw (Some (JSON.Array els)) :: rest) response
      = (response, Some (JSONError (JSON.UnmarshalTypeError "array" typeOnly)))).
Proof. repeat split. Qed.

End DecoderMore.

(** ** Fields and members *)

Lemma findField_sound (fields : list (string * string * JSON.gotype))
    (key name : string) (ft : JSON.gotype) :
  JSON.findField fields key = Some (name, ft) ->
  exists k, In (name, k, ft) fields /\ JSON.foldName k = JSON.foldName key.
Proof.
  unfold JSON.findField.
  destruct (List.find (fun f : string * string * JSON.gotype => String.eqb (snd (fst f)) key) fields)
    as [[[g k] t]|] eqn:Eexact.
  - apply find_some in Eexact as [Hin Heq]. cbn [fst snd] in *.
    apply String.eqb_eq in Heq. intros Hf. inversion Hf; subst. eauto.
  - destruct (List.find (fun f : string * string * JSON.gotype => String.eqb (JSON.foldName (snd (fst f))) (JSON.foldName key)) fields)
      as [[[g k] t]|] eqn:Efold; [|intros Hf; discriminate Hf].
    apply find_some in Efold as [Hin Heq]. cbn [fst snd] in *.
    apply String.eqb_eq in Heq. intros Hf. inversion Hf; subst. eauto.
Qed.

Lemma findField_None (fields : list (string * string * JSON.gotype))
    (key name k : string) (ft : JSON.gotype) :
  JSON.findField fields key = None ->
  In (name, k, ft) fields -> JSON.foldName k <> JSON.foldName key.
Proof.
  unfold JSON.findField.
  destruct (List.find (fun f : string * string * JSON.gotype => String.eqb (snd (fst f)) key) fields)
    as [f|]; [intros Hf; discriminate Hf|].
  destruct (List.find (fun f : string * string * JSON.gotype => String.eqb (JSON.foldName (snd (fst f))) (JSON.foldName key)) fields)
    as [f|] eqn:Efold; [intros Hf; discriminate Hf|].
  intros _ Hin Heq.
  pose proof (find_none _ _ Efold _ Hin) as Hno. cbn [fst snd] in Hno.
  rewrite Heq, String.eqb_refl in Hno. discriminate.
Qed.

Lemma isTString_eq (t : JSON.gotype) : isTString t = true -> t = JSON.TString.
Proof. destruct t; simpl; congruence. Qed.

(** In a table with the discriminator in its place, the members that
    go to the field Type are those whose name folds to TYPE. *)
Lemma findField_typeTable (fields : list (string * string * JSON.gotype)) (key : string) :
  typeTable fields = true ->
  (JSON.foldName key = "TYPE" ->
   JSON.findField fields key = Some ("Type", JSON.TString)) /\
  (forall ft, JSON.findField fields key = Some ("Type", ft) ->
              JSON.foldName key = "TYPE").
Proof.
  unfold typeTable. intros [Hall Hex]%andb_prop.
  rewrite forallb_forall in Hall. apply existsb_exists in Hex as ([[g0 k0] t0] & Hin0 & Hg0).
  cbn [fst snd] in Hg0. apply String.eqb_eq in Hg0. subst g0.
  assert (Hrow : forall g k t, In (g, k, t) fields ->
                   (JSON.foldName k = "TYPE" <-> g = "Type") /\
                   (g = "Type" -> t = JSON.TString)).
  { intros g k t Hin. specialize (Hall _ Hin). cbn [fst snd] in Hall.
    apply andb_prop in Hall as [Hiff Htype]. apply Bool.eqb_prop in Hiff. split.
    - rewrite <- !String.eqb_eq. now rewrite Hiff.
    - intros ->. rewrite String.eqb_refl in Htype. now apply isTString_eq. }
  split.
  - intros Hkey. destruct (JSON.findField fields key) as [[g t]|] eqn:Efind.
    + destruct (findField_sound fields key g t Efind) as (k & Hin & Hfold).
      destruct (Hrow g k t Hin) as [Hiff Htype].
      assert (g = "Type") by (apply Hiff; congruence). subst g.
      now rewrite (Htype eq_refl).
    + exfalso. apply (findField_None fields key "Type" k0 t0 Efind Hin0).
      rewrite Hkey. now apply (Hrow "Type" k0 t0 Hin0).
  - intros ft Hfind. destruct (findField_sound fields key "Type" ft Hfind) as (k & Hin & Hfold).
    rewrite <- Hfold. now apply (Hrow "Type" k ft Hin).
Qed.

Lemma getField_setField_eq (fs : list (string * JSON.goval)) (name : string)
    (old v : JSON.goval) :
  JSON.getField fs name = Some old ->
  JSON.getField (JSON.setField fs name v) name = Some v.
Proof.
  induction fs as [|[n w] fs IH]; simpl; [discriminate|].
  destruct (String.eqb n name) eqn:E; simpl; rewrite E; auto.
Qed.

Lemma getField_setField_ne (fs : list (string * JSON.goval)) (name other : string)
    (v : JSON.goval) :
  other <> name ->
  JSON.getField (JSON.setField fs other v) name = JSON.getField fs name.
Proof.
  intros Hne. induction fs as [|[n w] fs IH]; simpl; [reflexivity|].
  destruct (String.eqb n other) eqn:E; simpl.
  - apply String.eqb_eq in E. subst n. apply String.eqb_neq in Hne. now rewrite Hne.
  - now rewrite IH.
Qed.

Lemma storeMembers_skip (value_ : JSON.gotype -> JSON.value -> JSON.goval ->
                                  option JSON.error -> JSON.decoded JSON.goval)
    (fields : list (string * string * JSON.gotype))
    (ms1 ms2 : list (string * JSON.value)) (key : string) (v : JSON.value)
    (cur : list (string * JSON.goval)) (saved : option JSON.error) :
  JSON.findField fields key = None ->
  JSON.storeMembers value_ fields (ms1 ++ (key, v) :: ms2) cur saved
  = JSON.storeMembers value_ fields (ms1 ++ ms2) cur saved.
Proof.
  intros Hnone. rewrite !storeMembers_app.
  destruct (JSON.storeMembers value_ fields ms1 cur saved); [|reflexivity].
  cbn [JSON.storeMembers fst]. now rewrite Hnone.
Qed.

Section Members.

Context `{StdLib}.

(** A text field takes the same value from a member whatever the
    errors saved so far. *)
Lemma store_TString (j : JSON.value) (old : JSON.goval) (s1 s2 : option JSON.error) :
  exists v s1' s2',
    JSON.store validTime JSON.TString j old s1 = JSON.Done v s1' /\
    JSON.store validTime JSON.TString j old s2 = JSON.Done v s2'.
Proof. destruct j; cbn; eauto. Qed.

(** Two structs with the discriminator in its place get the same value
    in the field Type from the members of one object. *)
Lemma storeMembers_Type (fields1 fields2 : list (string * string * JSON.gotype)) :
  typeTable fields1 = true -> typeTable fields2 = true ->
  forall (ms : list (string * JSON.value)) (cur1 cur2 r1 r2 : list (string * JSON.goval))
         (s1 s2 t1 t2 : option JSON.error) (x : JSON.goval),
    JSON.getField cur1 "Type" = Some x ->
    JSON.getField cur2 "Type" = Some x ->
    JSON.storeMembers (JSON.store validTime) fields1 ms cur1 s1 = JSON.Done r1 t1 ->
    JSON.storeMembers (JSON.store validTime) fields2 ms cur2 s2 = JSON.Done r2 t2 ->
    JSON.getField r1 "Type" = JSON.getField r2 "Type".
Proof.
  intros Htable1 Htable2.
  induction ms as [|[key j] ms IH]; intros cur1 cur2 r1 r2 s1 s2 t1 t2 x Hx1 Hx2.
  - cbn. intros Hr1 Hr2. inversion Hr1; inversion Hr2; subst. congruence.
  - cbn [JSON.storeMembers fst snd].
    destruct (findField_typeTable fields1 key Htable1) as [Hyes1 Hno1].
    destruct (findField_typeTable fields2 key Htable2) as [Hyes2 Hno2].
    destruct (string_dec (JSON.foldName key) "TYPE") as [Hkey|Hkey].
    + rewrite (Hyes1 Hkey), (Hyes2 Hkey), Hx1, Hx2. cbn [default from_option id].
      destruct (store_TString j x s1 s2) as (v & s1' & s2' & -> & ->).
      apply (IH _ _ _ _ _ _ _ _ v);
        [apply (getField_setField_eq _ _ x)|apply (getField_setField_eq _ _ x)]; assumption.
    + intros Hr1 Hr2.
      assert (Hstep1 : exists cur1' s1',
                 JSON.getField cur1' "Type" = Some x /\
                 JSON.storeMembers (JSON.store validTime) fields1 ms cur1' s1'
                 = JSON.Done r1 t1).
      { destruct (JSON.findField fields1 key) as [[name ft]|] eqn:Efind; [|eauto].
        destruct (JSON.store validTime ft j _ s1) as [v s1'|e]; [|discriminate].
        exists (JSON.setField cur1 name v), s1'. split; [|assumption].
        rewrite getField_setField_ne; [assumption|].
        intros ->. apply Hkey. now apply (Hno1 ft). }
      assert (Hstep2 : exists cur2' s2',
                 JSON.getField cur2' "Type" = Some x /\
                 JSON.storeMembers (JSON.store validTime) fields2 ms cur2' s2'
                 = JSON.Done r2 t2).
      { destruct (JSON.findField fields2 key) as [[name ft]|] eqn:Efind; [|eauto].
        destruct (JSON.store validTime ft j _ s2) as [v s2'|e]; [|discriminate].
        exists (JSON.setField cur2 name v), s2'. split; [|assumption].
        rewrite getField_setField_ne; [assumption|].
        intros ->. apply Hkey. now apply (Hno2 ft). }
      destruct Hstep1 as (cur1' & s1' & Hx1' & Hr1').
      destruct Hstep2 as (cur2' & s2' & Hx2' & Hr2').
      apply (IH _ _ _ _ _ _ _ _ x Hx1' Hx2' Hr1' Hr2').
Qed.

(** The first pass and the decoding into a struct with the
    discriminator in its place read the same discriminator. *)
Lemma Unmarshal_Type (name : string) (fields : list (string * string * JSON.gotype))
    (j : JSON.value) (t v : JSON.goval) :
  typeTable fields = true ->
  JSON.getField
    (List.map (fun f : string * string * JSON.gotype => (fst (fst f), JSON.zero (snd f)))
              fields) "Type"
  = Some (JSON.VString "") ->
  JSON.Unmarshal validTime typeOnly j = inl t ->
  JSON.Unmarshal validTime (JSON.TStruct name fields) j = inl v ->
  stringField t "Type" = stringField v "Type".
Proof.
  intros Htable Hfield. unfold JSON.Unmarshal.
  destruct j as [|b|lit|s|els|ms]; try (cbn; discriminate).
  - cbn [JSON.store typeOnly]. intros Ht Hv. inversion Ht; inversion Hv; subst.
    unfold stringField. cbn [JSON.zero]. now rewrite Hfield.
  - cbn [JSON.store typeOnly JSON.zero].
    destruct (JSON.storeMembers (JSON.store validTime) [ ("Type", "Type", JSON.TString) ]
                ms _ None) as [r1 [e1|]|e1] eqn:E1; try discriminate.
    destruct (JSON.storeMembers (JSON.store validTime) fields ms _ None)
      as [r2 [e2|]|e2] eqn:E2; try discriminate.
    intros Ht Hv. inversion Ht; inversion Hv; subst. unfold stringField.
    assert (Hagree : JSON.getField r1 "Type" = JSON.getField r2 "Type").
    { refine (storeMembers_Type [ ("Type", "Type", JSON.TString) ] fields
                eq_refl Htable ms _ _ r1 r2 None None None None (JSON.VString "")
                _ Hfield E1 E2).
      reflexivity. }
    now rewrite Hagree.
Qed.

(** X12.  The field Type of a hit agrees with its variant: a Series hit
    has the Type series, and an Asset hit has a Type that is neither
    empty nor series. *)
Theorem hit_Type_agrees_with_variant (h : JSON.goval) (hit : Hit) :
  decodesTo h hit ->
  match hit with
  | HitSeries series => stringField series "Type" = "series"
  | HitAsset asset =>
      stringField asset "Type" <> "series" /\ stringField asset "Type" <> ""
  end.
Proof.
  intros Hd. destruct (decodesTo_variant h hit Hd) as (t & Ht & Hne & Hvariant).
  destruct h as [| | | |[j|]| | | | |]; try discriminate. cbn [unmarshalRaw] in *.
  destruct (String.eqb (stringField t "Type") "series") eqn:Eseries.
  - destruct Hvariant as (series & Hs & ->). apply String.eqb_eq in Eseries.
    rewrite <- Eseries. symmetry.
    apply (Unmarshal_Type "Series" (fieldsOf Series) j t series); auto.
  - destruct Hvariant as (asset & Ha & ->). apply String.eqb_neq in Eseries.
    rewrite <- (Unmarshal_Type "Asset" (fieldsOf Asset) j t asset); auto.
Qed.

(** Leaving out a member that has no field. *)
Lemma Unmarshal_skip (name : string) (fields : list (string * string * JSON.gotype))
    (ms1 ms2 : list (string * JSON.value)) (key : string) (v : JSON.value) :
  JSON.findField fields key = None ->
  JSON.Unmarshal validTime (JSON.TStruct name fields)
    (JSON.Object (ms1 ++ (key, v) :: ms2))
  = JSON.Unmarshal validTime (JSON.TStruct name fields) (JSON.Object (ms1 ++ ms2)).
Proof.
  intros Hnone. unfold JSON.Unmarshal. cbn [JSON.store].
  now rewrite (storeMembers_skip _ fields ms1 ms2 key v _ None Hnone).
Qed.

(** X13.  A member of a hit whose name is the name of no field of
    [Series] and of [Asset] (in any case of the letters) is ignored:
    the loop does with the element what it does without the member,
    whatever the value of the member is. *)
Theorem unknown_member_ignored (ms1 ms2 : list (string * JSON.value)) (key : string)
    (v : JSON.value) (rest : list JSON.goval) (response : Response) :
  JSON.findField (fieldsOf Series) key = None ->
  JSON.findField (fieldsOf Asset) key = None ->
  decodeHits (JSON.VRaw (Some (JSON.Object (ms1 ++ (key, v) :: ms2))) :: rest) response
  = decodeHits (JSON.VRaw (Some (JSON.Object (ms1 ++ ms2))) :: rest) response.
Proof.
  intros Hseries Hasset.
  assert (Hkey : JSON.foldName key <> "TYPE").
  { intros Hkey. assert (Htable : typeTable (fieldsOf Series) = true) by reflexivity.
    destruct (findField_typeTable (fieldsOf Series) key Htable) as [Hyes _].
    rewrite (Hyes Hkey) in Hseries. discriminate. }
  pose proof (Unmarshal_skip "" (fieldsOf typeOnly) ms1 ms2 key v
                (findField_typeOnly_absent key Hkey)) as Hfirst.
  pose proof (Unmarshal_skip "Series" (fieldsOf Series) ms1 ms2 key v Hseries) as Hs.
  pose proof (Unmarshal_skip "Asset" (fieldsOf Asset) ms1 ms2 key v Hasset) as Ha.
  change (JSON.TStruct "" (fieldsOf typeOnly)) with typeOnly in Hfirst.
  change (JSON.TStruct "Series" (fieldsOf Series)) with Series in Hs.
  change (JSON.TStruct "Asset" (fieldsOf Asset)) with Asset in Ha.
  cbn [decodeHits unmarshalRaw]. now rewrite Hfirst, Hs, Ha.
Qed.

(** The members of the envelope that are not the array leave the
    field Hits alone, and a null for the array leaves it nil. *)
Lemma storeMembers_envelope_Hits (ms : list (string * JSON.value))
    (cur r : list (string * JSON.goval)) (s t : option JSON.error) :
  (forall kv, In kv ms -> JSON.foldName (fst kv) = "ASSETS" -> snd kv = JSON.Null) ->
  JSON.getField cur "Hits" = Some JSON.VNil ->
  JSON.storeMembers (JSON.store validTime) (fieldsOf envelope) ms cur s = JSON.Done r t ->
  JSON.getField r "Hits" = Some JSON.VNil.
Proof.
  revert cur s. induction ms as [|[key j] ms IH]; intros cur s Hnull Hcur.
  - cbn. intros Hr. inversion Hr; subst. assumption.
  - cbn [JSON.storeMembers fst snd].
    assert (Hrest : forall kv, In kv ms -> JSON.foldName (fst kv) = "ASSETS" ->
                               snd kv = JSON.Null)
      by (intros kv Hin; apply Hnull; now right).
    destruct (JSON.findField (fieldsOf envelope) key) as [[name ft]|] eqn:Efind;
      [|now apply IH].
    destruct (findField_sound _ _ _ _ Efind) as (k & Hin & Hfold).
    destruct Hin as [Hin|[Hin|[]]]; inversion Hin; subst.
    + destruct (JSON.store validTime JSON.TInt j _ s) as [v s'|e]; [|discriminate].
      apply IH; [assumption|]. now rewrite getField_setField_ne.
    + assert (Hj : j = JSON.Null)
        by (apply (Hnull (key, j)); [now left|cbn [fst]; now rewrite <- Hfold]).
      subst j. cbn [JSON.store]. apply IH; [assumption|].
      now apply (getField_setField_eq _ _ JSON.VNil).
Qed.

(** X15.  A body whose envelope has no member for the array of hits
    (assets in any case of the letters), or null for it, gives a
    response without hits and without an error, with the total of the
    body. *)
Theorem makeResponse_without_assets (req : HTTP.Request) (resp : HTTP.Response)
    (ms : list (string * JSON.value)) (v : JSON.goval) :
  JSON.scanFirst (HTTP.Body resp) = inl (JSON.Object ms) ->
  (forall kv, In kv ms -> JSON.foldName (fst kv) = "ASSETS" -> snd kv = JSON.Null) ->
  JSON.Decode validTime envelope (HTTP.Body resp) = inl v ->
  makeResponse req resp
  = ({| TotalHits := intField v "TotalHits"; Hits := []; Meta_ := makeMeta req resp |},
     None).
Proof.
  intros Hscan Hnull Hv. unfold makeResponse. rewrite Hv.
  assert (Hhits : sliceField v "Hits" = []).
  { unfold JSON.Decode in Hv. rewrite Hscan in Hv. unfold JSON.Unmarshal in Hv.
    cbn [JSON.store envelope JSON.zero] in Hv.
    destruct (JSON.storeMembers (JSON.store validTime) _ ms _ None)
      as [r [e|]|e] eqn:Estore; try discriminate.
    inversion Hv; subst. unfold sliceField.
    assert (Hnil : JSON.getField r "Hits" = Some JSON.VNil).
    { refine (storeMembers_envelope_Hits ms _ r None None Hnull _ Estore). reflexivity. }
    now rewrite Hnil. }
  now rewrite Hhits.
Qed.

End Members.

(** ** Errors of the decoder stay *)

Section Sticky.

Context `{StdLib}.

(** X16.  A hit whose one member named type is not a text: with null
    the hit counts as one without type, and with a truth value, a
    number, an array or an object the first pass fails with the type
    error of the decoder for a text field; the loop stops there. *)
Theorem type_member_not_a_text (ms1 ms2 : list (string * JSON.value)) (key : string)
    (j : JSON.value) (rest : list JSON.goval) (response : Response) :
  JSON.foldName key = "TYPE" ->
  (forall kv, In kv (ms1 ++ ms2) -> JSON.foldName (fst kv) <> "TYPE") ->
  (forall s, j <> JSON.Str s) ->
  decodeHits (JSON.VRaw (Some (JSON.Object (ms1 ++ (key, j) :: ms2))) :: rest) response
  = (response,
     Some match j with
          | JSON.Null => ErrTypeMissing
          | _ => JSONError (JSON.UnmarshalTypeError (kindOf j) JSON.TString)
          end).
Proof.
  intros Hkey Habs Hj.
  assert (Hfirst :
            unmarshalRaw typeOnly (JSON.VRaw (Some (JSON.Object (ms1 ++ (key, j) :: ms2))))
            = match j with
              | JSON.Null => inl (JSON.VStruct [ ("Type", JSON.VString "") ])
              | _ => inr (JSON.UnmarshalTypeError (kindOf j) JSON.TString)
              end).
  { unfold unmarshalRaw, JSON.Unmarshal.
    cbn [JSON.store typeOnly JSON.zero List.map fst snd].
    rewrite storeMembers_app, storeMembers_absent
      by (intros kv Hin; apply Habs, in_or_app; now left).
    cbn [JSON.storeMembers fst snd]. rewrite (findField_typeOnly_present key Hkey).
    destruct j as [|b|lit|s|els|ms]; try (now contradiction (Hj s));
      cbn [JSON.store JSON.setField JSON.getField default from_option id JSON.saveError];
      rewrite ?String.eqb_refl;
      now rewrite storeMembers_absent
        by (intros kv Hin; apply Habs, in_or_app; now right). }
  cbn [decodeHits]. rewrite Hfirst. now destruct j.
Qed.

Lemma vsize_element (els : list JSON.value) (x : JSON.value) :
  In x els -> vsize x <= list_sum (List.map vsize els).
Proof.
  induction els as [|y els IH]; [intros []|].
  intros [->|Hin]; simpl; [lia|]. specialize (IH Hin). lia.
Qed.

Lemma vsize_member (ms : list (string * JSON.value)) (kv : string * JSON.value) :
  In kv ms ->
  vsize (snd kv)
  <= list_sum (List.map (fun kv : string * JSON.value => vsize (snd kv)) ms).
Proof.
  induction ms as [|y ms IH]; [intros []|].
  intros [->|Hin]; simpl; [lia|]. specialize (IH Hin). lia.
Qed.

Lemma storeElements_keepsError value_ (et : JSON.gotype) (els : list JSON.value) :
  (forall x, In x els -> keepsError value_ x) ->
  forall olds e vs s,
    JSON.storeElements value_ et els olds (Some e) = JSON.Done vs s -> s = Some e.
Proof.
  induction els as [|x els IH]; intros Hall olds e vs s.
  - cbn. intros Hr. now inversion Hr.
  - cbn [JSON.storeElements].
    destruct (value_ et x _ (Some e)) as [v s'|err] eqn:Ex; [|discriminate].
    apply (Hall x (or_introl eq_refl)) in Ex. subst s'.
    destruct (JSON.storeElements value_ et els _ (Some e)) as [vs' s'|err] eqn:Erest;
      [|discriminate].
    apply IH in Erest; [|intros y Hy; apply Hall; now right].
    intros Hr. inversion Hr; subst. reflexivity.
Qed.

Lemma storeMembers_keepsError value_ (fields : list (string * string * JSON.gotype))
    (ms : list (string * JSON.value)) :
  (forall kv, In kv ms -> keepsError value_ (snd kv)) ->
  forall cur e r s,
    JSON.storeMembers value_ fields ms cur (Some e) = JSON.Done r s -> s = Some e.
Proof.
  induction ms as [|kv ms IH]; intros Hall cur e r s.
  - cbn. intros Hr. now inversion Hr.
  - cbn [JSON.storeMembers].
    assert (Hrest : forall kv', In kv' ms -> keepsError value_ (snd kv'))
      by (intros kv' Hin; apply Hall; now right).
    destruct (JSON.findField fields (fst kv)) as [[name ft]|]; [|now apply IH].
    destruct (value_ ft (snd kv) _ (Some e)) as [v s'|err] eqn:Ex; [|discriminate].
    apply (Hall kv (or_introl eq_refl)) in Ex. subst s'. now apply IH.
Qed.

Lemma storeEntries_keepsError value_ (et : JSON.gotype) (ms : list (string * JSON.value)) :
  (forall kv, In kv ms -> keepsError value_ (snd kv)) ->
  forall m e r s,
    JSON.storeEntries value_ et ms m (Some e) = JSON.Done r s -> s = Some e.
Proof.
  induction ms as [|kv ms IH]; intros Hall m e r s.
  - cbn. intros Hr. now inversion Hr.
  - cbn [JSON.storeEntries].
    destruct (value_ et (snd kv) _ (Some e)) as [v s'|err] eqn:Ex; [|discriminate].
    apply (Hall kv (or_introl eq_refl)) in Ex. subst s'.
    apply IH. intros kv' Hin. apply Hall. now right.
Qed.

(** The decoder does not forget the first value that did not fit. *)
Lemma store_keepsError (n : nat) (j : JSON.value) :
  vsize j <= n -> keepsError (JSON.store validTime) j.
Proof.
  revert j. induction n as [|n IH]; intros j Hn.
  - destruct j; cbn in Hn; lia.
  - intros t old e v s.
    destruct j as [|b|lit|str|els|ms].
    + destruct t; cbn; intros Hr; inversion Hr; reflexivity.
    + destruct t; cbn; intros Hr; inversion Hr; reflexivity.
    + destruct t; cbn; try (intros Hr; inversion Hr; reflexivity).
      destruct (JSON.parseInt lit); cbn; intros Hr; inversion Hr; reflexivity.
    + destruct t; cbn; try (intros Hr; inversion Hr; reflexivity).
      destruct (validTime str); intros Hr; inversion Hr; reflexivity.
    + assert (Hels : forall x, In x els -> keepsError (JSON.store validTime) x).
      { intros x Hin. apply IH. apply vsize_element in Hin. cbn [vsize] in Hn. lia. }
      destruct t; cbn [JSON.store JSON.unmarshalTime JSON.saveError];
        try (intros Hr; inversion Hr; reflexivity).
      destruct (JSON.storeElements _ _ _ _ (Some e)) as [vs s'|err] eqn:Erun;
        [|discriminate].
      apply (storeElements_keepsError _ _ _ Hels) in Erun. subst s'.
      intros Hr. now inversion Hr.
    + assert (Hms : forall kv, In kv ms -> keepsError (JSON.store validTime) (snd kv)).
      { intros kv Hin. apply IH. apply vsize_member in Hin. cbn [vsize] in Hn. lia. }
      destruct t; cbn [JSON.store JSON.unmarshalTime JSON.saveError];
        try (intros Hr; inversion Hr; reflexivity).
      * destruct (JSON.storeEntries _ _ _ _ (Some e)) as [m s'|err] eqn:Erun;
          [|discriminate].
        apply (storeEntries_keepsError _ _ _ Hms) in Erun. subst s'.
        intros Hr. now inversion Hr.
      * destruct (JSON.storeMembers _ _ _ _ (Some e)) as [r s'|err] eqn:Erun;
          [|discriminate].
        apply (storeMembers_keepsError _ _ _ Hms) in Erun. subst s'.
        intros Hr. now inversion Hr.
Qed.

(** A struct does not decode from an object with a member that it
    refuses, wherever the member stands. *)
Lemma Unmarshal_refused (name : string) (fields : list (string * string * JSON.gotype))
    (ms1 ms2 : list (string * JSON.value)) (key : string) (j : JSON.value)
    (v : JSON.goval) :
  refusedMember fields key j ->
  JSON.Unmarshal validTime (JSON.TStruct name fields)
    (JSON.Object (ms1 ++ (key, j) :: ms2)) <> inl v.
Proof.
  intros (g & ft & Hfind & Hrefuse). unfold JSON.Unmarshal. cbn [JSON.store].
  rewrite storeMembers_app.
  destruct (JSON.storeMembers _ fields ms1 _ None) as [cur s1|err]; [|discriminate].
  cbn [JSON.storeMembers fst snd]. rewrite Hfind.
  destruct (JSON.store validTime ft j _ s1) as [w [e|]|err] eqn:Estore;
    [|now apply Hrefuse in Estore|discriminate].
  destruct (JSON.storeMembers _ fields ms2 _ (Some e)) as [r s2|err] eqn:Erest;
    [|discriminate].
  apply storeMembers_keepsError in Erest;
    [|intros kv _; apply (store_keepsError (vsize (snd kv))); lia].
  subst s2. discriminate.
Qed.

(** Members that a struct refuses: a text for a list, a number that is
    no integer of 64 bits for an integer, a text that is no time for a
    time. *)
Lemma refusedMember_cases (fields : list (string * string * JSON.gotype))
    (key name : string) :
  (forall et s,
      JSON.findField fields key = Some (name, JSON.TSlice et) ->
      refusedMember fields key (JSON.Str s)) /\
  (forall lit,
      JSON.findField fields key = Some (name, JSON.TInt) ->
      JSON.parseInt lit = None ->
      refusedMember fields key (JSON.Number lit)) /\
  (forall s,
      JSON.findField fields key = Some (name, JSON.TTime) ->
      validTime s = false ->
      refusedMember fields key (JSON.Str s)).
Proof.
  split; [|split].
  - intros et s Hfind. exists name, (JSON.TSlice et). split; [assumption|].
    intros old v saved. cbn. destruct saved; cbn; congruence.
  - intros lit Hfind Hint. exists name, JSON.TInt. split; [assumption|].
    intros old v saved. cbn. rewrite Hint. destruct saved; cbn; congruence.
  - intros s Hfind Htime. exists name, JSON.TTime. split; [assumption|].
    intros old v saved. cbn. rewrite Htime. discriminate.
Qed.

(** X17.  A hit that the loop returns has no member that its struct
    refuses: an object with a member whose value does not fit the
    field of that name (a text for a list, a number with a fraction for
    an integer, a text that is no time for a time) does not become a
    hit of that variant, wherever the member stands in the object. *)
Theorem refused_member_never_a_hit (ms1 ms2 : list (string * JSON.value)) (key : string)
    (j : JSON.value) (hit : Hit) :
  decodesTo (JSON.VRaw (Some (JSON.Object (ms1 ++ (key, j) :: ms2)))) hit ->
  match hit with
  | HitSeries _ => ~ refusedMember (fieldsOf Series) key j
  | HitAsset _ => ~ refusedMember (fieldsOf Asset) key j
  end.
Proof.
  intros Hd. destruct (decodesTo_variant _ hit Hd) as (t & _ & _ & Hvariant).
  cbn [unmarshalRaw] in Hvariant.
  destruct (String.eqb (stringField t "Type") "series").
  - destruct Hvariant as (series & Hs & ->). intros Hrefused.
    now apply (Unmarshal_refused "Series" (fieldsOf Series) ms1 ms2 key j series Hrefused).
  - destruct Hvariant as (asset & Ha & ->). intros Hrefused.
    now apply (Unmarshal_refused "Asset" (fieldsOf Asset) ms1 ms2 key j asset Hrefused).
Qed.

End Sticky.

(** ** The case of the letters in the names of members *)

Lemma nodupb_unique {A : Type} (f : A -> string) (l : list A) (x y : A) :
  nodupb (List.map f l) = true -> In x l -> In y l -> f x = f y -> x = y.
Proof.
  induction l as [|a l IH]; [intros _ []|].
  cbn [List.map nodupb]. intros [Hfresh Hrest]%andb_prop Hx Hy Heq.
  apply Bool.negb_true_iff in Hfresh.
  assert (Hnot : forall z, In z l -> f a <> f z).
  { intros z Hz Hfz.
    assert (Hex : existsb (String.eqb (f a)) (List.map f l) = true).
    { apply existsb_exists. exists (f z). split; [now apply in_map|].
      now apply String.eqb_eq. }
    congruence. }
  destruct Hx as [<-|Hx], Hy as [<-|Hy].
  - reflexivity.
  - now contradiction (Hnot y Hy).
  - symmetry in Heq. now contradiction (Hnot x Hx).
  - now apply IH.
Qed.

Lemma findField_complete (fields : list (string * string * JSON.gotype))
    (key name k : string) (ft : JSON.gotype) :
  foldUnique fields = true ->
  In (name, k, ft) fields ->
  JSON.foldName k = JSON.foldName key ->
  JSON.findField fields key = Some (name, ft).
Proof.
  intros Hunique Hin Hfold.
  destruct (JSON.findField fields key) as [[name' ft']|] eqn:Efind.
  - destruct (findField_sound fields key name' ft' Efind) as (k' & Hin' & Hfold').
    assert (Hsame : (name', k', ft') = (name, k, ft)).
    { apply (nodupb_unique (fun f : string * string * JSON.gotype =>
                              JSON.foldName (snd (fst f))) fields); auto.
      cbn [fst snd]. congruence. }
    now inversion Hsame.
  - now contradiction (findField_None fields key name k ft Efind Hin).
Qed.

(** In such a struct the field of a member depends on the folded name
    of the member only. *)
Lemma findField_fold (fields : list (string * string * JSON.gotype)) (key key' : string) :
  foldUnique fields = true ->
  JSON.foldName key = JSON.foldName key' ->
  JSON.findField fields key = JSON.findField fields key'.
Proof.
  intros Hunique Hfold.
  destruct (JSON.findField fields key) as [[name ft]|] eqn:Efind.
  - destruct (findField_sound fields key name ft Efind) as (k & Hin & Hk).
    symmetry. apply (findField_complete fields key' name k ft Hunique Hin). congruence.
  - destruct (JSON.findField fields key') as [[name ft]|] eqn:Efind'; [|reflexivity].
    destruct (findField_sound fields key' name ft Efind') as (k & Hin & Hk).
    rewrite (findField_complete fields key name k ft Hunique Hin) in Efind by congruence.
    discriminate.
Qed.

Section FoldedNames.

Context `{StdLib}.

Lemma Unmarshal_rename (name : string) (fields : list (string * string * JSON.gotype))
    (ms1 ms2 : list (string * JSON.value)) (key key' : string) (v : JSON.value) :
  foldUnique fields = true ->
  JSON.foldName key = JSON.foldName key' ->
  JSON.Unmarshal validTime (JSON.TStruct name fields)
    (JSON.Object (ms1 ++ (key, v) :: ms2))
  = JSON.Unmarshal validTime (JSON.TStruct name fields)
      (JSON.Object (ms1 ++ (key', v) :: ms2)).
Proof.
  intros Hunique Hfold. unfold JSON.Unmarshal. cbn [JSON.store].
  rewrite !storeMembers_app.
  destruct (JSON.storeMembers _ fields ms1 _ None) as [cur s|err]; [|reflexivity].
  cbn [JSON.storeMembers fst snd].
  now rewrite (findField_fold fields key key' Hunique Hfold).
Qed.

(** X18.  The case of the letters in the name of a member of a hit does
    not matter: the loop does the same with an element when a member
    is renamed to a name with the same folding (type, Type, TYPE;
    video_id, Video_ID). *)
Theorem member_name_case_insensitive (ms1 ms2 : list (string * JSON.value))
    (key key' : string) (v : JSON.value) (rest : list JSON.goval) (response : Response) :
  JSON.foldName key = JSON.foldName key' ->
  decodeHits (JSON.VRaw (Some (JSON.Object (ms1 ++ (key, v) :: ms2))) :: rest) response
  = decodeHits (JSON.VRaw (Some (JSON.Object (ms1 ++ (key', v) :: ms2))) :: rest) response.
Proof.
  intros Hfold.
  pose proof (Unmarshal_rename "" (fieldsOf typeOnly) ms1 ms2 key key' v eq_refl Hfold)
    as Hfirst.
  pose proof (Unmarshal_rename "Series" (fieldsOf Series) ms1 ms2 key key' v eq_refl Hfold)
    as Hs.
  pose proof (Unmarshal_rename "Asset" (fieldsOf Asset) ms1 ms2 key key' v eq_refl Hfold)
    as Ha.
  change (JSON.TStruct "" (fieldsOf typeOnly)) with typeOnly in Hfirst.
  change (JSON.TStruct "Series" (fieldsOf Series)) with Series in Hs.
  change (JSON.TStruct "Asset" (fieldsOf Asset)) with Asset in Ha.
  cbn [decodeHits unmarshalRaw]. now rewrite Hfirst, Hs, Ha.
Qed.

End FoldedNames.

Lemma member_name_case_insensitive_witness :
  @decodeHits exampleLib
    [ JSON.VRaw (Some (JSON.Object ([ ("type", JSON.Str "clip") ]
                                    ++ ("Video_ID", JSON.Str "a1") :: []))) ]
    zeroResponse
  = @decodeHits exampleLib
      [ JSON.VRaw (Some (JSON.Object ([ ("type", JSON.Str "clip") ]
                                      ++ ("video_id", JSON.Str "a1") :: []))) ]
      zeroResponse.
Proof.
  apply (@member_name_case_insensitive exampleLib). reflexivity.
Defined.

(** ** The further properties at work on examples *)

Lemma ensureCorrectFieldsParam_guarantee_witness :
  In "type"
     (GoStrings.Split
        (URL.Get (ensureCorrectFieldsParam (Some {[ "fields" := [ "id" ] ]})) "fields")
        ","%char).
Proof.
  apply (ensureCorrectFieldsParam_guarantee (Some {[ "fields" := [ "id" ] ]})).
  vm_compute. discriminate.
Defined.

Lemma newSearchRequest_leaves_alone_witness :
  exists m' : gmap string (list string),
    fst (@newSearchRequest exampleLib
           {| baseURL := None; appName := ""; httpClient := fun _ => inr "no transport" |}
           (Some {[ "client" := [ "mine" ] ]}) [])
    = Some m' /\
    m' !! "client" = Some [ "mine" ].
Proof.
  destruct (@newSearchRequest_leaves_alone exampleLib) as (_ & Hempty & _).
  destruct (Hempty {| baseURL := None; appName := "";
                      httpClient := fun _ => inr "no transport" |}
                   {[ "client" := [ "mine" ] ]} [] eq_refl)
    as (m' & Hfst & Hframe).
  exists m'. split; [exact Hfst|].
  rewrite Hframe by discriminate. reflexivity.
Defined.

Lemma newSearchRequest_SetRequestID_witness :
  exists req : HTTP.Request,
    @newSearchRequest exampleLib (exampleClient 200 "application/json" "{}") None
      ([] ++ [ SetRequestID "r1" ])
    = (None, inl req) /\
    HTTP.ReqHeader req !! "X-Request-Id" = Some [ "r1" ].
Proof.
  eexists. split; [reflexivity|].
  edestruct (@newSearchRequest_SetRequestID exampleLib
               (exampleClient 200 "application/json" "{}") None None [] "r1")
    as (req0 & _ & Hheader & _); [reflexivity|exact Hheader].
Defined.

Lemma Search_query_effect_witness :
  fst (@Search exampleLib (exampleClient 200 "application/json" "{}") None []) = None.
Proof.
  apply (@Search_query_effect exampleLib (exampleClient 200 "application/json" "{}")
           None []).
  reflexivity.
Defined.

Lemma Search_error_without_hits_witness :
  Hits (fst (snd (@Search exampleLib (exampleClient 200 "application/json" bodyWithoutType)
                    None [])))
  = [].
Proof.
  apply (@Search_error_without_hits exampleLib
           (exampleClient 200 "application/json" bodyWithoutType) None []
           ErrTypeMissing).
  vm_compute. reflexivity.
Defined.

Lemma Search_meta_attached_witness :
  StatusCode
    (Meta_ (fst (snd (@Search exampleLib (exampleClient 503 "text/html" "") None []))))
  = 503%Z.
Proof.
  destruct (@Search_meta_attached exampleLib (exampleClient 503 "text/html" "")
              None None [])
    as (Hmeta & _).
  erewrite Hmeta; [|reflexivity|reflexivity]. reflexivity.
Defined.

Lemma Search_success_iff_witness :
  snd (snd (@Search exampleLib
              (exampleClient 200 "application/json"
                 (GoStrings.quoted "{'total_hits':1,'assets':[{'type':'clip'}]}"))
              None []))
  = None.
Proof.
  apply (@Search_success_iff exampleLib). eexists. eexists. eexists.
  split; [reflexivity|]. split; [reflexivity|]. split; [reflexivity|].
  split; vm_compute; reflexivity.
Defined.

Lemma makeResponse_outcome_witness :
  length (Hits (fst (@makeResponse exampleLib
                       (HTTP.mkRequest "GET" (URL.mkURL "" "" "/search" "") ∅)
                       (HTTP.mkResponse 200 ∅ bodyWithoutType))))
  <= 2.
Proof.
  destruct (@makeResponse_outcome exampleLib
              (HTTP.mkRequest "GET" (URL.mkURL "" "" "/search" "") ∅)
              (HTTP.mkResponse 200 ∅ bodyWithoutType))
    as (_ & _ & Hdecoded).
  edestruct Hdecoded as (_ & Hlength & _); [vm_compute; reflexivity|exact Hlength].
Defined.

Lemma hit_Type_agrees_with_variant_witness :
  exists series : JSON.goval,
    @decodesTo exampleLib
      (JSON.VRaw (Some (JSON.Object [ ("TYPE", JSON.Str "series"); ("id", JSON.Str "s1") ])))
      (HitSeries series) /\
    stringField series "Type" = "series".
Proof.
  eexists. split; [vm_compute; reflexivity|].
  apply (@hit_Type_agrees_with_variant exampleLib
           (JSON.VRaw (Some (JSON.Object [ ("TYPE", JSON.Str "series");
                                           ("id", JSON.Str "s1") ])))
           (HitSeries _)).
  vm_compute. reflexivity.
Defined.

Lemma unknown_member_ignored_witness :
  @decodeHits exampleLib
    [ JSON.VRaw (Some (JSON.Object ([ ("type", JSON.Str "clip") ]
                                    ++ ("score", JSON.Number "0.5") :: []))) ]
    zeroResponse
  = @decodeHits exampleLib
      [ JSON.VRaw (Some (JSON.Object ([ ("type", JSON.Str "clip") ] ++ []))) ]
      zeroResponse.
Proof.
  apply (@unknown_member_ignored exampleLib); vm_compute; reflexivity.
Defined.

Lemma makeResponse_without_assets_witness :
  @makeResponse exampleLib
    (HTTP.mkRequest "GET" (URL.mkURL "" "" "/search" "") ∅)
    (HTTP.mkResponse 200 ∅ (GoStrings.quoted "{'total_hits':3,'Assets':null}"))
  = ({| TotalHits := 3; Hits := [];
        Meta_ := {| StatusCode := 200; Header := ∅;
                    RequestURL := Some (URL.mkURL "" "" "/search" "") |} |}, None).
Proof.
  erewrite (@makeResponse_without_assets exampleLib);
    [
    | vm_compute; reflexivity
    | intros kv [<-|[<-|[]]] Hfold; [vm_compute in Hfold; discriminate|reflexivity]
    | vm_compute; reflexivity ].
  reflexivity.
Defined.

Lemma type_member_not_a_text_witness :
  @decodeHits exampleLib
    [ JSON.VRaw (Some (JSON.Object ([] ++ ("type", JSON.Number "5")
                                       :: [ ("id", JSON.Str "s1") ]))) ]
    zeroResponse
  = (zeroResponse,
     Some (JSONError (JSON.UnmarshalTypeError "number" JSON.TString))).
Proof.
  apply (@type_member_not_a_text exampleLib [] [ ("id", JSON.Str "s1") ] "type"
           (JSON.Number "5") [] zeroResponse).
  - reflexivity.
  - intros kv [<-|[]]. vm_compute. discriminate.
  - discriminate.
Defined.

Lemma refused_member_never_a_hit_witness :
  ~ @refusedMember exampleLib (fieldsOf Series) "id" (JSON.Str "s1").
Proof.
  eapply (@refused_member_never_a_hit exampleLib [ ("type", JSON.Str "series") ] []
            "id" (JSON.Str "s1") (HitSeries _)).
  vm_compute. reflexivity.
Defined.
